(** * Hierarchical evaluation of a Faster R-CNN detector

    A shallow embedding of
    [Examples/Image/Detection/FasterRCNN/hierarchical_evaluation.py]
    and the properties of its bookkeeping: ground-truth expansion,
    prediction assembly, the evaluation driver, box drawing and the
    corner/centre coordinate conversions.

    Conventions of the embedding.
    - numpy floats are exact rationals ([Q]); rounding, infinities and the
      [float32] cast of the assembled detections are not represented;
      NaN appears only where the driver averages AP values.
    - a two-dimensional numpy array is a list of rows, and a row of known
      width is a record or a tuple, so arrays are rectangular by typing.
    - Python exceptions are the constructors of [exn]; a function that can
      raise returns a [result].
    - [print] and the [cv2] drawing calls are recorded as a list of events. *)

From Stdlib Require Import QArith Qabs Lqa.
From stdpp Require Import gmap strings list fin_maps.

Open Scope string_scope.
Open Scope list_scope.
Open Scope nat_scope.

(** ** Exceptions and the error monad *)

Inductive exn :=
| AssertionError (msg : string)
| IndexError
| KeyError (key : string)
| ValueError
| TypeError
| ZeroDivisionError.

Inductive result (A : Type) :=
| Ok (a : A)
| Err (e : exn).
Arguments Ok {A} a.
Arguments Err {A} e.

(** The monad operations, so that stdpp's [x ← r; k] reads as sequencing
    with exception propagation. *)
#[global] Instance result_ret : MRet result := λ A a, Ok a.
#[global] Instance result_bind : MBind result := λ A B k r,
  match r with
  | Ok a => k a
  | Err e => Err e
  end.

(** [assert cond, msg] *)
Definition py_assert (cond : bool) (msg : string) : result unit :=
  if cond then Ok () else Err (AssertionError msg).

(** [xs[i]] for a non-negative [i] *)
Definition index {A} (xs : list A) (i : nat) : result A :=
  match xs !! i with
  | Some x => Ok x
  | None => Err IndexError
  end.

(** [range(a, b)] *)
Definition range (a b : nat) : list nat := seq a (b - a).

(** [for x in xs: s = body(x, s)], stopping at the first exception *)
Fixpoint for_each {A St} (xs : list A) (body : A → St → result St) (s : St) : result St :=
  match xs with
  | [] => Ok s
  | x :: xs' =>
      match body x s with
      | Ok s' => for_each xs' body s'
      | Err e => Err e
      end
  end.

(** [int(x)] of a float: truncation towards zero *)
Definition py_int (x : Q) : Z := Z.quot (Qnum x) (Z.pos (Qden x)).

(** [float(n)] of a non-negative machine integer *)
Definition of_nat (n : nat) : Q := inject_Z (Z.of_nat n).

(** [np.concatenate(rows, axis=0)] of a Python list of [(1, k)] arrays whose
    width [k] is fixed by the row type: numpy raises [ValueError] on an empty
    list and stacks the rows otherwise. *)
Definition np_concatenate {A} (rows : list A) : result (list A) :=
  match rows with
  | [] => Err ValueError
  | _ => Ok rows
  end.

(** ** Boxes *)

(** The four coordinate columns of a box. *)
Record coords := Coords { c0 : Q; c1 : Q; c2 : Q; c3 : Q }.

(** ** The hierarchy helper

    [HCH] is built by [utils.hierarchical_classification], which is not part
    of this file of the repository; the operations the evaluation calls are
    taken as an interface. *)

Record HierarchyHelper := {
  (** [HCH.output_mapper.get_all_classes()] *)
  get_all_classes : list string;
  (** first component of [HCH.get_vectors_for_label_nr(label)] *)
  get_vectors_for_label_nr : Z → list Q;
  (** [HCH.output_mapper.get_prediciton_vector(v)] *)
  get_prediciton_vector : list Q → list Q;
  (** [HCH.cls_maps[0].getClass(label)] *)
  getClass : Z → string;
  (** [HCH.top_down_eval(v)] *)
  top_down_eval : list Q → list Q
}.

(** ** prepare_ground_truth_boxes *)

(** A row of [gtbs[image_i]]: coordinates and the original label. *)
Definition gt_row : Type := coords * Q.

(** A derived box [lbox]: coordinates and the mapped class index. *)
Definition lbox : Type := coords * Q.

(** One per-image, per-class record of [all_gt_infos]. *)
Record gt_info := GtInfo {
  bbox : list lbox;
  difficult : list bool;
  det : list bool
}.

Definition assert_msg : string :=
  "Original class label is not contained in mapped selection!".

Section GroundTruth.
Variable HCH : HierarchyHelper.

(** Body of [for vector_i in range(1, len(reduced_vector))]; the state is
    [(original_cls_name, all_gt_boxes)], with [None] for Python's [None]. *)
Definition vector_step (classes : list string) (coords_i : coords)
    (reduced_vector : list Q) (vector_i : nat)
    (st : option string * list lbox) : result (option string * list lbox) :=
  v ← index reduced_vector vector_i;
  if Qeq_bool v 0 then Ok st
  else
    current_class_name ← index classes vector_i;
    let original_cls_name :=
      match st.1 with
      | Some n => if String.eqb n current_class_name then None else Some n
      | None => None
      end in
    Ok (original_cls_name, st.2 ++ [(coords_i, of_nat vector_i)]).

(** Body of [for gtb_i in range(len(image_gtbs))]; [gtb] is the row
    [image_gtbs[gtb_i]], the only use of [gtb_i]. *)
Definition gtb_step (classes : list string) (gtb : gt_row)
    (all_gt_boxes : list lbox) : result (list lbox) :=
  let label := py_int gtb.2 in
  let train_vector := get_vectors_for_label_nr HCH label in
  let reduced_vector := get_prediciton_vector HCH train_vector in
  let original_cls_name := getClass HCH label in
  '(original_cls_name, all_gt_boxes) ←
    for_each (range 1 (length reduced_vector))
             (vector_step classes gtb.1 reduced_vector)
             (Some original_cls_name, all_gt_boxes);
  _ ← py_assert (bool_decide (original_cls_name = None)) assert_msg;
  Ok all_gt_boxes.

(** [all_gt_boxes[np.where(all_gt_boxes[:, -1] == cls_index)]] *)
Definition boxes_of_class (all_gt_boxes : list lbox) (cls_index : nat) : list lbox :=
  List.filter (λ b : lbox, Qeq_bool b.2 (of_nat cls_index)) all_gt_boxes.

(** Body of [for cls_index, cls_name in enumerate(classes)]. *)
Definition cls_step (all_gt_boxes : list lbox) (c : nat * string)
    (all_gt_infos : gmap string (list gt_info)) : result (gmap string (list gt_info)) :=
  let '(cls_index, cls_name) := c in
  if Nat.eqb cls_index 0 then Ok all_gt_infos
  else
    let cls_gt_boxes := boxes_of_class all_gt_boxes cls_index in
    match all_gt_infos !! cls_name with
    | None => Err (KeyError cls_name)
    | Some infos =>
        Ok (<[cls_name := infos ++ [GtInfo cls_gt_boxes
                                       (replicate (length cls_gt_boxes) false)
                                       (replicate (length cls_gt_boxes) false)]]>
              all_gt_infos)
    end.

(** Body of [for image_i in range(num_test_images)]; [image_gtbs] is
    [gtbs[image_i]], the only use of [image_i]. *)
Definition image_step (classes : list string) (image_gtbs : list gt_row)
    (all_gt_infos : gmap string (list gt_info)) : result (gmap string (list gt_info)) :=
  all_gt_boxes ← for_each image_gtbs (gtb_step classes) [];
  all_gt_boxes ← np_concatenate all_gt_boxes;
  for_each (imap pair classes) (cls_step all_gt_boxes) all_gt_infos.

Definition prepare_ground_truth_boxes (gtbs : list (list gt_row))
    : result (gmap string (list gt_info)) :=
  let classes := get_all_classes HCH in
  let all_gt_infos : gmap string (list gt_info) :=
    list_to_map ((λ key, (key, [])) <$> classes) in
  for_each gtbs (image_step classes) all_gt_infos.

End GroundTruth.

(** ** prepare_predictions *)

(** A row of [preds_for_img]: coordinates, score and label. *)
Definition pred_row : Type := coords * Q * Q.

(** A row of [all_boxes[cls_j][img_i]]: coordinates and score. *)
Definition det_row : Type := coords * Q.

Section Predictions.
Variable HCH : HierarchyHelper.

(** Body of [for label_i in range(num_classes)]. *)
Definition label_step (roi : coords) (reduced_p_vector : list Q) (label_i : nat)
    (preds_for_img : list pred_row) : result (list pred_row) :=
  v ← index reduced_p_vector label_i;
  if Qeq_bool v 0 then Ok preds_for_img
  else Ok (preds_for_img ++ [(roi, v, of_nat label_i)]).

(** Body of [for roi_i in range(len(output))]. *)
Definition roi_step (num_classes : nat) (output : list (list Q)) (rois : list coords)
    (roi_i : nat) (preds_for_img : list pred_row) : result (list pred_row) :=
  pred_vector ← index output roi_i;
  roi ← index rois roi_i;
  let processesed_vector := top_down_eval HCH pred_vector in
  let reduced_p_vector := get_prediciton_vector HCH processesed_vector in
  _ ← py_assert (Nat.eqb (length reduced_p_vector) num_classes) "";
  for_each (range 0 num_classes) (label_step roi reduced_p_vector) preds_for_img.

(** [preds_for_img[np.where(preds_for_img[:, -1] == cls_j)][:, :-1]] *)
Definition preds_of_class (preds_for_img : list pred_row) (cls_j : nat) : list det_row :=
  fst <$> List.filter (λ r : pred_row, Qeq_bool r.2 (of_nat cls_j)) preds_for_img.

(** Body of [for cls_j in range(1, num_classes)]:
    [all_boxes[cls_j][img_i] = ...]. *)
Definition assign_step (preds_for_img : list pred_row) (img_i cls_j : nat)
    (all_boxes : list (list (list det_row))) : result (list (list (list det_row))) :=
  row ← index all_boxes cls_j;
  if decide (img_i < length row)
  then Ok (<[cls_j := <[img_i := preds_of_class preds_for_img cls_j]> row]> all_boxes)
  else Err IndexError.

(** Body of [for img_i in range(num_test_images)]. *)
Definition img_step (num_classes : nat) (outputs : list (list (list Q)))
    (roiss : list (list coords)) (img_i : nat)
    (all_boxes : list (list (list det_row))) : result (list (list (list det_row))) :=
  output ← index outputs img_i;
  rois ← index roiss img_i;
  preds_for_img ← for_each (range 0 (length output)) (roi_step num_classes output rois) [];
  preds_for_img ← np_concatenate preds_for_img;
  for_each (range 1 num_classes) (assign_step preds_for_img img_i) all_boxes.

Definition prepare_predictions (outputs : list (list (list Q)))
    (roiss : list (list coords)) (num_classes : nat)
    : result (list (list (list det_row))) :=
  let num_test_images := length outputs in
  let all_boxes := replicate num_classes (replicate num_test_images []) in
  for_each (range 0 num_test_images) (img_step num_classes outputs roiss) all_boxes.

End Predictions.

(** ** to_image_input_coordinates and points_to_xywh *)

(** [coords op= (a, b, a, b)] on every row. *)
Definition scale_rows (op : Q → Q → Q) (d : Q * Q) (rows : list coords) : list coords :=
  (λ c, Coords (op (c0 c) d.1) (op (c1 c) d.2) (op (c2 c) d.1) (op (c3 c) d.2)) <$> rows.

(** [a / b] on Python numbers. *)
Definition py_div (a b : Q) : result Q :=
  if Qeq_bool b 0 then Err ZeroDivisionError else Ok (a / b)%Q.

(** The function returns the transformed array; that the in-place
    operators also change the caller's array when [centered_coords] is
    false is not represented. *)
Definition to_image_input_coordinates (coords_ : list coords)
    (img_dims : option (Q * Q)) (relative_coord centered_coords : bool)
    (img_input_dims : option (Q * Q))
    (needs_padding_adaption is_absolute : bool) : result (list coords) :=
  let coords_ :=
    if centered_coords
    then (λ c, Coords (c0 c - c2 c / 2) (c1 c - c3 c / 2)
                      (c0 c + c2 c / 2) (c1 c + c3 c / 2))%Q <$> coords_
    else coords_ in
  '((coords_, relative_coord) : list coords * bool) ←
    (if is_absolute
     then match img_dims with
          | Some d => Ok (scale_rows Qdiv d coords_, true)
          | None => Err TypeError
          end
     else Ok (coords_, relative_coord));
  coords_ ←
    match needs_padding_adaption, img_dims with
    | true, Some (d0, d1) =>
        if Qlt_le_dec d1 d0 then
          r ← py_div d1 d0;
          Ok ((λ c, Coords (c0 c) (c1 c * r + (1 - r) / 2)
                           (c2 c) (c3 c * r + (1 - r) / 2))%Q <$> coords_)
        else if Qlt_le_dec d0 d1 then
          r ← py_div d0 d1;
          Ok ((λ c, Coords (c0 c * r + (1 - r) / 2) (c1 c)
                           (c2 c * r + (1 - r) / 2) (c3 c))%Q <$> coords_)
        else Ok coords_
    | _, _ => Ok coords_
    end;
  if relative_coord
  then match img_input_dims with
       | Some d => Ok (scale_rows Qmult d coords_)
       | None => Err TypeError
       end
  else Ok coords_.

(** A row of the argument of [points_to_xywh]: the four coordinate columns
    and the columns [4:], which are copied. *)
Definition points_to_xywh (points : list (coords * list Q)) : list (coords * list Q) :=
  (λ p : coords * list Q,
     (Coords ((c0 p.1 + c2 p.1) / 2)%Q ((c1 p.1 + c3 p.1) / 2)%Q
             (Qabs (c2 p.1 - c0 p.1)%Q) (Qabs (c3 p.1 - c1 p.1)%Q), p.2)) <$> points.

(** ** draw_bb_on_image *)

(** What the function prints and draws, in order. *)
Inductive draw_event :=
| Print_out_of_bounds (xmin ymin xmax ymax : Z)
| Rectangle (pt1 pt2 : Z * Z) (color : Z * Z * Z)
| PutText (text : string) (org : Z * Z) (color : Z * Z * Z).

(** [xmax >= image_width or ymax >= image_height or xmin < 0 or ymin < 0] *)
Definition out_of_bounds (image_width image_height xmin ymin xmax ymax : Z) : bool :=
  (image_width <=? xmax)%Z || (image_height <=? ymax)%Z || (xmin <? 0)%Z || (ymin <? 0)%Z.

(** Body of [for j in range(box_list_len)]. *)
Definition draw_step (image_width image_height : Z) (bb_list : list (coords * list Q))
    (name : option string) (box_list_len : nat) (j : nat)
    (events : list draw_event) : result (list draw_event) :=
  row ← index bb_list j;
  let box := row.1 in
  let xmin := py_int (inject_Z image_width * (c0 box - c2 box / 2)) in
  let xmax := py_int (inject_Z image_width * (c0 box + c2 box / 2)) in
  let ymin := py_int (inject_Z image_height * (c1 box - c3 box / 2)) in
  let ymax := py_int (inject_Z image_height * (c1 box + c3 box / 2)) in
  let events :=
    if out_of_bounds image_width image_height xmin ymin xmax ymax
    then events ++ [Print_out_of_bounds xmin ymin xmax ymax]
    else events in
  let xmax := if (image_width <=? xmax)%Z then (image_width - 1)%Z else xmax in
  let ymax := if (image_height <=? ymax)%Z then (image_height - 1)%Z else ymax in
  let xmin := if (xmin <? 0)%Z then 0%Z else xmin in
  let ymin := if (ymin <? 0)%Z then 0%Z else ymin in
  let color := (255, 255 - py_int (of_nat (j * 255) / of_nat box_list_len),
                py_int (of_nat (j * 255) / of_nat box_list_len))%Z in
  let events := events ++ [Rectangle (xmin, ymin) (xmax, ymax) color] in
  Ok match name with
     | Some name => events ++ [PutText name (xmin, ymax) color]
     | None => events
     end.

(** The image is a list of pixel rows; the drawing on it is returned as the
    list of events. [LIMIT_TO_FIRST] is [None]. *)
Definition draw_bb_on_image {pixel} (image : list (list pixel))
    (bb_list : list (coords * list Q)) (name : option string) : result (list draw_event) :=
  row1 ← index image 1;
  let image_width := Z.of_nat (length row1) in
  let image_height := Z.of_nat (length image) in
  let box_list_len := length bb_list in
  for_each (range 0 box_list_len)
           (draw_step image_width image_height bb_list name box_list_len) [].

(** ** eval_fast_rcnn_mAP *)

(** An AP value: a float that may be NaN. *)
Inductive ap_value :=
| NaN
| AP (v : Q).

(** [np.nanmean]: the mean of the entries that are not NaN, and NaN when
    there is none. *)
Definition not_nan (l : list ap_value) : list Q :=
  omap (λ a, match a with AP v => Some v | NaN => None end) l.

Definition Qsum (l : list Q) : Q := foldr Qplus 0%Q l.

Definition np_nanmean (l : list ap_value) : ap_value :=
  match not_nan l with
  | [] => NaN
  | vs => AP (Qsum vs / of_nat (length vs))
  end.

(** The fields of [cfg] the driver names. *)
Record config := {
  INPUT_ROIS_PER_IMAGE : nat;
  DATA_NUM_TEST_IMAGES : nat
}.

(** The named outputs of the network for one image. *)
Record network_output := {
  cls_pred : list (list Q);
  rpn_rois : list coords;
  bbox_regr : list (list Q)
}.

Inductive print_event :=
| Print_evaluating (num_test_images : nat)
| Print_type_of_classes
| Print_images_processed (img_i : nat)
| Print_AP (class_name : string) (ap : ap_value)
| Print_mean_AP (mean : ap_value).

(** What the inference loop accumulates. *)
Record raw_data (source : Type) := RawData {
  source_state : source;
  all_raw_gt_boxes : list (list gt_row);
  all_raw_outputs : list (list (list Q));
  all_raw_rois : list (list coords);
  stdout : list print_event
}.
Arguments RawData {source}.
Arguments source_state {source}.
Arguments all_raw_gt_boxes {source}.
Arguments all_raw_outputs {source}.
Arguments all_raw_rois {source}.
Arguments stdout {source}.

Section Driver.
Variable HCH : HierarchyHelper.
(** The reader and the network are those of CNTK, and
    [evaluate_detections] is [utils.map_helpers]; they are parameters. *)
Variables source minibatch : Type.
Variable next_minibatch : source → minibatch * source.
(** the ground-truth stream of a minibatch, reshaped to [rows × 5] *)
Variable roi_stream : minibatch → nat → list gt_row.
Variable frcn_eval : minibatch → network_output.
Variable evaluate_detections :
  list (list (list det_row)) → gmap string (list gt_info) → list string →
  gmap string ap_value.

(** Body of [for img_i in range(0, num_test_images)]. *)
Definition inference_step (cfg : config) (img_i : nat)
    (st : raw_data source) : result (raw_data source) :=
  let '(mb_data, src) := next_minibatch (source_state st) in
  let gt_data := roi_stream mb_data (INPUT_ROIS_PER_IMAGE cfg) in
  let all_gt_boxes := List.filter (λ r : gt_row, negb (Qeq_bool r.2 0)) gt_data in
  let output := frcn_eval mb_data in
  let regressed_rois := rpn_rois output in
  Ok (RawData src
        (all_raw_gt_boxes st ++ [all_gt_boxes])
        (all_raw_outputs st ++ [cls_pred output])
        (all_raw_rois st ++ [regressed_rois])
        (if bool_decide (img_i `mod` 1000 = 0) && negb (bool_decide (img_i = 0))
         then stdout st ++ [Print_images_processed img_i]
         else stdout st)).

(** Lines 163 to 201: the loop over the test images. *)
Definition inference_loop (cfg : config) (src : source) : result (raw_data source) :=
  let num_test_images := 10 in
  for_each (range 0 num_test_images) (inference_step cfg)
           (RawData src [] [] []
              [Print_evaluating num_test_images; Print_type_of_classes]).

(** Body of [for class_name in classes]; the state is [(ap_list, stdout)]. *)
Definition report_step (aps : gmap string ap_value) (class_name : string)
    (st : list ap_value * list print_event) : result (list ap_value * list print_event) :=
  if String.eqb class_name "__background__" then Ok st
  else match aps !! class_name with
       | None => Err (KeyError class_name)
       | Some ap => Ok (st.1 ++ [ap], st.2 ++ [Print_AP class_name ap])
       end.

(** Lines 207 to 212: the report. *)
Definition report (classes : list string) (aps : gmap string ap_value)
    (out : list print_event) : result (list print_event) :=
  '(ap_list, out) ← for_each classes (report_step aps) ([], out);
  Ok (out ++ [Print_mean_AP (np_nanmean ap_list)]).

Definition eval_fast_rcnn_mAP (cfg : config) (src : source)
    : result (gmap string ap_value * list print_event) :=
  let classes := get_all_classes HCH in
  let num_classes := length classes in
  raw ← inference_loop cfg src;
  all_gt_infos ← prepare_ground_truth_boxes HCH (all_raw_gt_boxes raw);
  all_boxes ← prepare_predictions HCH (all_raw_outputs raw) (all_raw_rois raw) num_classes;
  let aps := evaluate_detections all_boxes all_gt_infos classes in
  out ← report classes aps (stdout raw);
  Ok (aps, out).

End Driver.

(** ** _scramble_list and img_list *)

(** [xs[i]] for any integer [i]: a negative index counts from the end. *)
Definition py_getitem {A} (xs : list A) (i : Z) : result A :=
  if (0 <=? i)%Z then index xs (Z.to_nat i)
  else if (- Z.of_nat (length xs) <=? i)%Z
       then index xs (Z.to_nat (Z.of_nat (length xs) + i))
       else Err IndexError.

(** Body of [for i in perm]. *)
Definition scramble_step {A} (to_sc : list A) (i : Z) (out : list A) : result (list A) :=
  x ← py_getitem to_sc i;
  Ok (out ++ [x]).

Definition _scramble_list {A} (to_sc : list A) (perm : list Z) : result (list A) :=
  for_each perm (scramble_step to_sc) [].

(** [os.path.join(a, b)] for a relative [b], on POSIX. *)
Definition os_path_join (a b : string) : string := a +:+ "/" +:+ b.

(** Lines 217 to 221: the test images, before they are scrambled. *)
Definition img_list_sorted (abs_path : string) : list string :=
  os_path_join abs_path <$>
    ["../../DataSets/Grocery/testImages/WIN_20160803_11_28_42_Pro.jpg";
     "../../DataSets/Grocery/testImages/WIN_20160803_11_42_36_Pro.jpg";
     "../../DataSets/Grocery/testImages/WIN_20160803_11_46_03_Pro.jpg";
     "../../DataSets/Grocery/testImages/WIN_20160803_11_48_26_Pro.jpg";
     "../../DataSets/Grocery/testImages/WIN_20160803_12_37_07_Pro.jpg"].

(** Line 232. *)
Definition img_list (abs_path : string) : result (list string) :=
  _scramble_list (img_list_sorted abs_path) [1; 3; 2; 4; 0]%Z.

(** ** add_rois_to_img *)

(** Lines 304 to 307: the rois are brought back from the scale of the
    network input to relative coordinates, and the padding of a 16:9 image
    is taken off the x columns. *)
Definition unscale_rois (output_scale : Q * Q) (remove_padding : bool)
    (rois : list (coords * list Q)) : list (coords * list Q) :=
  let rois :=
    (λ r : coords * list Q,
       (Coords (c0 r.1 / output_scale.1) (c1 r.1 / output_scale.2)
               (c2 r.1 / output_scale.1) (c3 r.1 / output_scale.2), r.2))%Q <$> rois in
  if remove_padding
  then (λ r : coords * list Q,
          (Coords ((c0 r.1 - 7 / 32) * (16 / 9)) (c1 r.1)
                  ((c2 r.1 - 7 / 32) * (16 / 9)) (c3 r.1), r.2))%Q <$> rois
  else rois.

(** [output_scale] is a global that this file reads and does not define;
    it is a parameter. A row of [rois] has its four coordinates and the
    columns after them, so [rois.size == 0] is the array without rows. *)
Definition add_rois_to_img {pixel} (output_scale : Q * Q) (img : list (list pixel))
    (rois : list (coords * list Q)) (cls_name : string) (remove_padding : bool)
    : result (list draw_event) :=
  match rois with
  | [] => Ok []
  | _ => draw_bb_on_image img
           (points_to_xywh (unscale_rois output_scale remove_padding rois))
           (Some cls_name)
  end.

(** * Specification vocabulary *)

(** The reduced vector and the original class name of a ground-truth box,
    as [gtb_step] computes them. *)
Definition reduced_vector_of (HCH : HierarchyHelper) (gtb : gt_row) : list Q :=
  get_prediciton_vector HCH (get_vectors_for_label_nr HCH (py_int gtb.2)).

Definition original_class_of (HCH : HierarchyHelper) (gtb : gt_row) : string :=
  getClass HCH (py_int gtb.2).

(** Entry [i] of a reduced vector is a non-background entry that is not zero. *)
Definition active (reduced_vector : list Q) (i : nat) : Prop :=
  1 ≤ i ∧ ∃ v, reduced_vector !! i = Some v ∧ Qeq_bool v 0 = false.

(** [name] is one of the non-background classes whose entry is not zero. *)
Definition among_active (classes : list string) (reduced_vector : list Q)
    (name : string) : Prop :=
  ∃ i, active reduced_vector i ∧ classes !! i = Some name.

(** The record that [cls_step] appends for class index [j], given the derived
    boxes of the image. *)
Definition gt_record (all_gt_boxes : list lbox) (j : nat) : gt_info :=
  GtInfo (boxes_of_class all_gt_boxes j)
         (replicate (length (boxes_of_class all_gt_boxes j)) false)
         (replicate (length (boxes_of_class all_gt_boxes j)) false).

(** Every box of the image passes the check of its original class. *)
Definition image_well_mapped (HCH : HierarchyHelper) (image_gtbs : list gt_row) : Prop :=
  ∀ gtb, gtb ∈ image_gtbs →
    length (reduced_vector_of HCH gtb) ≤ length (get_all_classes HCH)
    ∧ among_active (get_all_classes HCH) (reduced_vector_of HCH gtb)
        (original_class_of HCH gtb).

(** The triples that the label loop appends for one region: one per
    non-zero entry of the reduced vector, background included, in the order
    of the labels. [i] is the label of the head of the vector. *)
Fixpoint emitted_from (roi : coords) (i : nat) (reduced_p_vector : list Q) : list pred_row :=
  match reduced_p_vector with
  | [] => []
  | v :: rest =>
      (if Qeq_bool v 0 then [] else [(roi, v, of_nat i)])
      ++ emitted_from roi (S i) rest
  end.

(** The reduced vector of a raw prediction vector, as [roi_step] computes it. *)
Definition reduced_p_vector_of (HCH : HierarchyHelper) (pred_vector : list Q) : list Q :=
  get_prediciton_vector HCH (top_down_eval HCH pred_vector).

(** A region is a raw prediction vector with its box. *)
Definition region_rows (HCH : HierarchyHelper) (region : list Q * coords) : list pred_row :=
  emitted_from region.2 0 (reduced_p_vector_of HCH region.1).

(** [preds_for_img] for the regions of one image. *)
Definition image_rows (HCH : HierarchyHelper) (regions : list (list Q * coords)) : list pred_row :=
  concat (region_rows HCH <$> regions).

(** All the mass is on background: entry 0 is one and the others are zero. *)
Definition background_only (reduced_p_vector : list Q) : bool :=
  match reduced_p_vector with
  | [] => false
  | v :: rest => Qeq_bool v 1 && forallb (λ w, Qeq_bool w 0) rest
  end.

(** The detections of class [c] that a list of regions yields. *)
Definition detections (HCH : HierarchyHelper) (c : nat)
    (regions : list (list Q * coords)) : list det_row :=
  if decide (c = 0) then [] else preds_of_class (image_rows HCH regions) c.

(** Two boxes have the same coordinates, as rational numbers. *)
Definition coords_eq (a b : coords) : Prop :=
  (c0 a == c0 b ∧ c1 a == c1 b ∧ c2 a == c2 b ∧ c3 a == c3 b)%Q.

(** A box in corner form whose second corner is not before its first. *)
Definition ordered_corners (p : coords) : Prop :=
  (c0 p <= c2 p ∧ c1 p <= c3 p)%Q.

(** The pixel corners [(xmin, ymin, xmax, ymax)] of a box in centre form on
    an image of the given width and height, before any clamping. *)
Definition pixel_corners (w h : Z) (box : coords) : Z * Z * Z * Z :=
  (py_int (inject_Z w * (c0 box - c2 box / 2)),
   py_int (inject_Z h * (c1 box - c3 box / 2)),
   py_int (inject_Z w * (c0 box + c2 box / 2)),
   py_int (inject_Z h * (c1 box + c3 box / 2))).

Definition box_in_bounds (w h : Z) (row : coords * list Q) : bool :=
  let '(xmin, ymin, xmax, ymax) := pixel_corners w h row.1 in
  negb (out_of_bounds w h xmin ymin xmax ymax).

(** The colour of the box of rank [j] among [n] boxes. *)
Definition rank_color (j n : nat) : Z * Z * Z :=
  (255, 255 - Z.of_nat (j * 255 / n), Z.of_nat (j * 255 / n))%Z.

(** What is printed and drawn for the box of rank [j]: the message when a
    corner is out of bounds, the rectangle with [xmin] and [ymin] raised to
    0 and [xmax] and [ymax] capped at the last column and row, and the
    name at the lower left corner of that rectangle. *)
Definition box_events (w h : Z) (name : option string) (n j : nat)
    (row : coords * list Q) : list draw_event :=
  let '(xmin, ymin, xmax, ymax) := pixel_corners w h row.1 in
  (if out_of_bounds w h xmin ymin xmax ymax
   then [Print_out_of_bounds xmin ymin xmax ymax] else [])
  ++ [Rectangle (Z.max 0 xmin, Z.max 0 ymin)
                (Z.min (w - 1) xmax, Z.min (h - 1) ymax) (rank_color j n)]
  ++ match name with
     | Some text => [PutText text (Z.max 0 xmin, Z.min (h - 1) ymax) (rank_color j n)]
     | None => []
     end.

(** The rectangles among the events. *)
Definition drawn_rectangles (events : list draw_event) : list ((Z * Z) * (Z * Z)) :=
  omap (λ e, match e with Rectangle pt1 pt2 _ => Some (pt1, pt2) | _ => None end) events.

(** The reading of "a box out of the image bounds is skipped": as many
    rectangles are drawn as there are boxes within the bounds. *)
Definition skips_out_of_bounds {pixel} (image : list (list pixel))
    (bb_list : list (coords * list Q)) (name : option string) : Prop :=
  ∀ row1 events,
    image !! 1 = Some row1 →
    draw_bb_on_image image bb_list name = Ok events →
    length (drawn_rectangles events)
    = length (List.filter (box_in_bounds (Z.of_nat (length row1))
                                         (Z.of_nat (length image))) bb_list).

(** The classes that the report does not skip. *)
Definition non_background (classes : list string) : list string :=
  List.filter (λ c, negb (String.eqb c "__background__")) classes.

(** The AP lines and the mean lines among what was printed. *)
Definition reported_APs (out : list print_event) : list (string * ap_value) :=
  omap (λ e, match e with Print_AP c ap => Some (c, ap) | _ => None end) out.

Definition reported_means (out : list print_event) : list ap_value :=
  omap (λ e, match e with Print_mean_AP m => Some m | _ => None end) out.

(** [i] is an index that Python accepts for a list of length [n]. *)
Definition index_in_range (n : nat) (i : Z) : Prop :=
  (- Z.of_nat n <= i < Z.of_nat n)%Z.

(** The position that an accepted index [i] names in a list of length [n]. *)
Definition position (n : nat) (i : Z) : nat :=
  if (0 <=? i)%Z then Z.to_nat i else Z.to_nat (Z.of_nat n + i).

(** Entry [j] of a reduced vector counts for class [j]: it is a
    non-background entry, present and not zero. *)
Definition is_active (reduced_vector : list Q) (j : nat) : bool :=
  bool_decide (1 ≤ j)
  && match reduced_vector !! j with
     | Some v => negb (Qeq_bool v 0)
     | None => false
     end.

(** The record of class index [j] for one image, read off its ground-truth
    boxes: the coordinates of the boxes that count for the class, in their
    order, and one [False] per box in both flag lists. *)
Definition expected_record (HCH : HierarchyHelper) (j : nat)
    (image_gtbs : list gt_row) : gt_info :=
  let boxes :=
    (λ gtb : gt_row, (gtb.1, of_nat j))
      <$> List.filter (λ gtb, is_active (reduced_vector_of HCH gtb) j) image_gtbs in
  GtInfo boxes (replicate (length boxes) false) (replicate (length boxes) false).


(** An image that [prepare_predictions] can process: a box for every
    region, reduced vectors of [n] entries, and an entry that is not zero
    somewhere. *)
Definition image_ready (HCH : HierarchyHelper) (n : nat)
    (output : list (list Q)) (rois : list coords) : Prop :=
  length output ≤ length rois
  ∧ Forall (λ pv, length (reduced_p_vector_of HCH pv) = n) output
  ∧ Exists (λ pv, Exists (λ v, Qeq_bool v 0 = false) (reduced_p_vector_of HCH pv))
           output.

(** A box in corner form that lies within a frame of width [a] and height [b]. *)
Definition inside (a b : Q) (c : coords) : Prop :=
  (0 <= c0 c <= a ∧ 0 <= c1 c <= b ∧ 0 <= c2 c <= a ∧ 0 <= c3 c <= b)%Q.

(** A box in centre form with a width and a height that are not negative. *)
Definition proper_size (c : coords) : Prop := (0 <= c2 c ∧ 0 <= c3 c)%Q.

(** A row of four columns as a row with no further column. *)
Definition bare (c : coords) : coords * list Q := (c, []).

(** The two corners of a row exchanged. *)
Definition swap_corners (p : coords * list Q) : coords * list Q :=
  (Coords (c2 p.1) (c3 p.1) (c0 p.1) (c1 p.1), p.2).

(** The rectangle that is drawn for a row: its pixel corners, the first
    raised to 0 and the second capped at the last column and row. *)
Definition clamped_rectangle (w h : Z) (row : coords * list Q) : (Z * Z) * (Z * Z) :=
  let '(xmin, ymin, xmax, ymax) := pixel_corners w h row.1 in
  ((Z.max 0 xmin, Z.max 0 ymin), (Z.min (w - 1) xmax, Z.min (h - 1) ymax)).

(** The corners that the messages report, and the texts with their places. *)
Definition printed_boxes (events : list draw_event) : list (Z * Z * Z * Z) :=
  omap (λ e, match e with
             | Print_out_of_bounds a b c d => Some (a, b, c, d)
             | _ => None
             end) events.

Definition put_texts (events : list draw_event) : list (string * (Z * Z)) :=
  omap (λ e, match e with PutText t org _ => Some (t, org) | _ => None end) events.

(** A colour channel that fits a byte. *)
Definition byte (x : Z) : Prop := (0 <= x <= 255)%Z.

(** What is drawn lies on an image of the given width and height: the
    first corner of a rectangle is not negative, the second is not beyond
    the last column and row, and the colours are bytes. *)
Definition drawn_on_image (w h : Z) (e : draw_event) : Prop :=
  match e with
  | Print_out_of_bounds _ _ _ _ => True
  | Rectangle (x1, y1) (x2, y2) (r, g, b) =>
      (0 <= x1 ∧ 0 <= y1 ∧ x2 <= w - 1 ∧ y2 <= h - 1)%Z ∧ byte r ∧ byte g ∧ byte b
  | PutText _ (x, y) (r, g, b) =>
      (0 <= x ∧ y <= h - 1)%Z ∧ byte r ∧ byte g ∧ byte b
  end.

(** The first [n] minibatches of a reader, and the reader after them. *)
Fixpoint minibatches {source minibatch : Type}
    (next_minibatch : source → minibatch * source) (src : source) (n : nat)
    : list minibatch :=
  match n with
  | 0 => []
  | S n => (next_minibatch src).1
           :: minibatches next_minibatch (next_minibatch src).2 n
  end.

Fixpoint advance {source minibatch : Type}
    (next_minibatch : source → minibatch * source) (src : source) (n : nat) : source :=
  match n with
  | 0 => src
  | S n => advance next_minibatch (next_minibatch src).2 n
  end.

(** The ground-truth rows of a minibatch that are not padding. *)
Definition ground_truth_of {minibatch : Type}
    (roi_stream : minibatch → nat → list gt_row) (cfg : config) (mb : minibatch)
    : list gt_row :=
  List.filter (λ r : gt_row, negb (Qeq_bool r.2 0))
              (roi_stream mb (INPUT_ROIS_PER_IMAGE cfg)).

(** * A small hierarchy for concrete runs

    Background, the hypernym [fruit] and its two hyponyms. Original labels
    1 and 2 are apple and orange; label 3 is a class that the mapping lost. *)
Module Sample.

Definition classes : list string := ["__background__"; "fruit"; "apple"; "orange"].

Definition vectors_for_label_nr (label : Z) : list Q :=
  match label with
  | 1%Z => [0; 1; 1; 0]%Q
  | 2%Z => [0; 1; 0; 1]%Q
  | _ => [1; 0; 0; 0]%Q
  end.

Definition class_of_label (label : Z) : string :=
  match label with
  | 1%Z => "apple"
  | 2%Z => "orange"
  | 3%Z => "pear"
  | _ => "__background__"
  end.

(** a hyponym's score is weighted by its hypernym's *)
Definition top_down (v : list Q) : list Q :=
  match v with
  | [b; f; a; o] => [b; f; f * a; f * o]%Q
  | _ => v
  end.

Definition HCH : HierarchyHelper := {|
  get_all_classes := classes;
  get_vectors_for_label_nr := vectors_for_label_nr;
  get_prediciton_vector := λ v, v;
  getClass := class_of_label;
  top_down_eval := top_down
|}.

(** the same helper with a class table that lost the hyponyms *)
Definition HCH_short : HierarchyHelper := {|
  get_all_classes := ["__background__"; "fruit"];
  get_vectors_for_label_nr := vectors_for_label_nr;
  get_prediciton_vector := λ v, v;
  getClass := class_of_label;
  top_down_eval := top_down
|}.

Definition unit_box : coords := Coords 0 0 1 1.
Definition apple_gtb : gt_row := (unit_box, 1%Q).
Definition orange_gtb : gt_row := (unit_box, 2%Q).
Definition pear_gtb : gt_row := (unit_box, 3%Q).

(** two images: an apple; an orange and an apple *)
Definition gtbs : list (list gt_row) := [[apple_gtb]; [orange_gtb; apple_gtb]].

(** one image with two regions: background only, and a likely apple *)
Definition background_vector : list Q := [1; 0; 0; 0]%Q.
Definition apple_vector : list Q := [0; 1; 1 # 2; 0]%Q.
Definition outputs : list (list (list Q)) := [[background_vector; apple_vector]].
Definition roiss : list (list coords) := [[unit_box; unit_box]].

(** a vector of a hierarchy with one class less *)
Definition short_vector : list Q := [1; 0; 0]%Q.

(** the configuration of a test set of five images *)
Definition cfg : config := {| INPUT_ROIS_PER_IMAGE := 50; DATA_NUM_TEST_IMAGES := 5 |}.

(** the AP of a run in which no ground truth of [orange] was seen *)
Definition aps : gmap string ap_value :=
  <["fruit" := AP 1]> (<["apple" := AP (1 # 2)]> (<["orange" := NaN]> ∅)).

(** a reader that numbers its minibatches; every minibatch has one apple
    among padded rows, and the network sees the two regions above *)
Definition next_minibatch (s : nat) : nat * nat := (s, S s).
Definition roi_stream (mb : nat) (rows : nat) : list gt_row :=
  apple_gtb :: replicate (rows - 1) (Coords 0 0 0 0, 0%Q).
Definition frcn_eval (mb : nat) : network_output :=
  {| cls_pred := [background_vector; apple_vector];
     rpn_rois := [unit_box; unit_box];
     bbox_regr := [] |}.
Definition evaluate_detections (all_boxes : list (list (list det_row)))
    (all_gt_infos : gmap string (list gt_info)) (classes : list string)
    : gmap string ap_value := aps.

(** an image of three columns and two rows, a box in centre form that
    is wider than the image, and one inside it *)
Definition image : list (list unit) := [[(); (); ()]; [(); (); ()]].
Definition wide_box : coords * list Q := (Coords (1 # 2) (1 # 2) 2 (1 # 2), []).
Definition inner_box : coords * list Q := (Coords (1 # 2) (1 # 2) (1 # 2) (1 # 2), []).

End Sample.

(** * Properties *)

(** ** Reasoning about loops *)

Lemma bind_Ok {A B} (r : result A) (k : A → result B) b :
  r ≫= k = Ok b ↔ ∃ a, r = Ok a ∧ k a = Ok b.
Proof.
  destruct r as [a|e]; simpl; split.
  - eauto.
  - by intros (a' & [= ->] & ?).
  - done.
  - by intros (? & ? & ?).
Qed.

Lemma for_each_app {A St} (xs ys : list A) (body : A → St → result St) s :
  for_each (xs ++ ys) body s = for_each xs body s ≫= for_each ys body.
Proof.
  revert s. induction xs as [|x xs IH]; intros s; simpl; [done|].
  destruct (body x s); [apply IH | done].
Qed.

(** Partial correctness: an invariant indexed by the number of completed
    iterations holds at exit when the loop ends normally. *)
Lemma for_each_inv {A St} (I : nat → St → Prop) (xs : list A)
    (body : A → St → result St) s s' :
  I 0 s →
  (∀ i x t t', xs !! i = Some x → I i t → body x t = Ok t' → I (S i) t') →
  for_each xs body s = Ok s' →
  I (length xs) s'.
Proof.
  revert I s. induction xs as [|x xs IH]; intros I s H0 Hstep; simpl.
  - by intros [= <-].
  - destruct (body x s) as [t|e] eqn:Hb; [|done]. intros Hrun.
    apply (IH (λ i, I (S i)) t); [|by intros; eapply (Hstep (S i))|done].
    by apply (Hstep 0 x s t).
Qed.

(** Total correctness: when every iteration succeeds from a state that
    satisfies the invariant, so does the loop. *)
Lemma for_each_total {A St} (I : nat → St → Prop) (xs : list A)
    (body : A → St → result St) s :
  I 0 s →
  (∀ i x t, xs !! i = Some x → I i t → ∃ t', body x t = Ok t' ∧ I (S i) t') →
  ∃ s', for_each xs body s = Ok s' ∧ I (length xs) s'.
Proof.
  revert I s. induction xs as [|x xs IH]; intros I s H0 Hstep; simpl.
  - eauto.
  - destruct (Hstep 0 x s eq_refl H0) as (t & -> & Ht).
    apply (IH (λ i, I (S i)) t); [done|]. intros i y u Hy Hu.
    by apply (Hstep (S i)).
Qed.

(** The first failing iteration decides the outcome of the loop. *)
Lemma for_each_first_error {A St} (pre : list A) x post
    (body : A → St → result St) s t e :
  for_each pre body s = Ok t →
  body x t = Err e →
  for_each (pre ++ x :: post) body s = Err e.
Proof. intros Hpre Hx. rewrite for_each_app, Hpre. simpl. by rewrite Hx. Qed.

Lemma lookup_range a b i : range a b !! i = Some (a + i) ↔ i < b - a.
Proof.
  unfold range. split.
  - intros H. apply lookup_lt_Some in H. by rewrite length_seq in H.
  - intros H. by apply lookup_seq_lt.
Qed.

Lemma lookup_range_Some a b i j : range a b !! i = Some j → j = a + i ∧ a + i < b.
Proof. unfold range. intros [-> ?]%lookup_seq. lia. Qed.

Lemma length_range a b : length (range a b) = b - a.
Proof. apply length_seq. Qed.

(** ** Numbers *)

Lemma Qeq_bool_of_nat i j : Qeq_bool (of_nat i) (of_nat j) = bool_decide (i = j).
Proof.
  unfold of_nat. case_bool_decide as H.
  - subst. apply Qeq_bool_iff. reflexivity.
  - apply not_true_is_false. intros Heq%Qeq_bool_iff. apply H.
    unfold Qeq in Heq. simpl in Heq. lia.
Qed.

(** ** Ground-truth expansion *)

Section GroundTruthFacts.
Variable HCH : HierarchyHelper.

(** The scan of one reduced vector, when the vector is not longer than the
    class table: it never raises, it clears the original name exactly when
    the name is that of an active entry, and it appends one box per active
    entry. *)
Lemma vector_loop_spec classes co rv nm boxes :
  length rv ≤ length classes →
  ∃ orig derived,
    for_each (range 1 (length rv)) (vector_step classes co rv) (Some nm, boxes)
      = Ok (orig, boxes ++ derived)
    ∧ Forall (λ b : lbox, ∃ i, active rv i ∧ b = (co, of_nat i)) derived
    ∧ ((orig = None ∧ among_active classes rv nm ∧ derived ≠ [])
       ∨ (orig = Some nm ∧ ¬ among_active classes rv nm)).
Proof.
  intros Hlen.
  pose (I := λ (k : nat) (st : option string * list lbox),
    ∃ derived, st.2 = boxes ++ derived
      ∧ Forall (λ b : lbox, ∃ i, active rv i ∧ b = (co, of_nat i)) derived
      ∧ ((st.1 = None ∧ among_active classes rv nm ∧ derived ≠ [])
         ∨ (st.1 = Some nm
            ∧ ∀ i, i < 1 + k → active rv i → classes !! i ≠ Some nm))).
  destruct (for_each_total I (range 1 (length rv)) (vector_step classes co rv)
              (Some nm, boxes)) as ([orig bs] & Hrun & derived & Hbs & Hall & Hcase).
  - exists []. simpl. rewrite app_nil_r. split_and!; [done|constructor|].
    right. split; [done|]. intros i Hi [Hi1 _]. lia.
  - intros k x [o bs] Hx (derived & Hbs & Hall & Hcase). simpl in Hbs, Hcase. subst bs.
    apply lookup_range_Some in Hx as [-> Hx]. change (1 + k) with (S k) in *.
    unfold vector_step, index.
    destruct (lookup_lt_is_Some_2 rv (S k)) as [v Hv]; [lia|].
    rewrite Hv. simpl. destruct (Qeq_bool v 0) eqn:Hz.
    + eexists. split; [done|]. exists derived. split_and!; [done..|].
      destruct Hcase as [?|[-> Hno]]; [by left|right].
      split; [done|]. intros i Hi Hact.
      destruct (decide (i = S k)) as [->|]; [|apply Hno; [lia|done]].
      destruct Hact as (_ & v' & Hv' & Hnz). congruence.
    + destruct (lookup_lt_is_Some_2 classes (S k)) as [c Hc]; [lia|].
      rewrite Hc. simpl. eexists. split; [done|].
      assert (Hact : active rv (S k)) by (split; [lia|eauto]).
      exists (derived ++ [(co, of_nat (S k))]). simpl.
      split_and!; [by rewrite app_assoc| |].
      { apply Forall_app. split; [done|]. repeat constructor. eauto. }
      destruct Hcase as [(-> & ? & ?)|[-> Hno]].
      { left. split_and!; [done..|]. by intros []%app_eq_nil. }
      destruct (String.eqb nm c) eqn:Hnm.
      * apply String.eqb_eq in Hnm as ->. left. split_and!; [done| |].
        { by exists (S k). }
        { by intros []%app_eq_nil. }
      * apply String.eqb_neq in Hnm. right. split; [done|].
        intros i Hi Hact'.
        destruct (decide (i = S k)) as [->|]; [congruence|apply Hno; [lia|done]].
  - simpl in Hbs, Hcase. subst bs. exists orig, derived. split_and!; [done..|].
    destruct Hcase as [?|[-> Hno]]; [by left|right]. split; [done|].
    intros (i & Hact & Hi). apply (Hno i); [|done..].
    destruct Hact as (_ & v & Hv & _). apply lookup_lt_Some in Hv.
    rewrite length_range. lia.
Qed.

Lemma gtb_step_pass classes gtb boxes :
  length (reduced_vector_of HCH gtb) ≤ length classes →
  among_active classes (reduced_vector_of HCH gtb) (original_class_of HCH gtb) →
  ∃ derived,
    gtb_step HCH classes gtb boxes = Ok (boxes ++ derived)
    ∧ derived ≠ []
    ∧ Forall (λ b : lbox, ∃ i, active (reduced_vector_of HCH gtb) i
                               ∧ b = (gtb.1, of_nat i)) derived.
Proof.
  intros Hlen Hin.
  destruct (vector_loop_spec classes gtb.1 _ (original_class_of HCH gtb) boxes Hlen)
    as (orig & derived & Hrun & Hall & [(-> & _ & Hne)|[_ Hno]]); [|done].
  exists derived. unfold gtb_step.
  change (get_prediciton_vector HCH _) with (reduced_vector_of HCH gtb).
  change (getClass HCH _) with (original_class_of HCH gtb).
  by rewrite Hrun.
Qed.

Lemma gtb_step_fail classes gtb boxes :
  length (reduced_vector_of HCH gtb) ≤ length classes →
  ¬ among_active classes (reduced_vector_of HCH gtb) (original_class_of HCH gtb) →
  gtb_step HCH classes gtb boxes = Err (AssertionError assert_msg).
Proof.
  intros Hlen Hin.
  destruct (vector_loop_spec classes gtb.1 _ (original_class_of HCH gtb) boxes Hlen)
    as (orig & derived & Hrun & Hall & [(_ & ? & _)|[-> _]]); [done|].
  unfold gtb_step.
  change (get_prediciton_vector HCH _) with (reduced_vector_of HCH gtb).
  change (getClass HCH _) with (original_class_of HCH gtb).
  by rewrite Hrun.
Qed.

(** Without any assumption on the helper: a scan that ends normally has
    cleared the original name only for the name of an active entry. *)
Lemma vector_loop_inv classes co rv nm boxes orig boxes' :
  for_each (range 1 (length rv)) (vector_step classes co rv) (Some nm, boxes)
    = Ok (orig, boxes') →
  orig = None → among_active classes rv nm.
Proof.
  intros Hrun.
  pose (I := λ (k : nat) (st : option string * list lbox),
    (st.1 = None ∨ st.1 = Some nm) ∧ (st.1 = None → among_active classes rv nm)).
  apply (for_each_inv I) in Hrun; [by destruct Hrun| |].
  - split; [by right|done].
  - intros k x [o bs] st' [-> Hk]%lookup_range_Some [Ho Hact]. simpl in Ho, Hact.
    change (1 + k) with (S k) in *. unfold vector_step, index.
    destruct (rv !! S k) as [v|] eqn:Hv; [|done]. simpl.
    destruct (Qeq_bool v 0) eqn:Hz; [by intros [= <-]|].
    destruct (classes !! S k) as [c|] eqn:Hc; [|done]. simpl. intros [= <-].
    unfold I. simpl. destruct Ho as [-> | ->]; [by split; [left|]|].
    destruct (String.eqb nm c) eqn:Hnm; [|by split; [right|]].
    apply String.eqb_eq in Hnm as ->. split; [by left|]. intros _.
    exists (S k). split; [|done]. split; [lia|]. by exists v.
Qed.

Lemma gtb_step_Ok classes gtb boxes boxes' :
  gtb_step HCH classes gtb boxes = Ok boxes' →
  among_active classes (reduced_vector_of HCH gtb) (original_class_of HCH gtb).
Proof.
  unfold gtb_step. intros Hstep.
  apply bind_Ok in Hstep as ([orig bs] & Hloop & Hstep).
  apply (vector_loop_inv _ _ _ _ _ _ _ Hloop).
  destruct orig; [done|done].
Qed.

Lemma for_each_Ok_elem {A St} (xs : list A) (body : A → St → result St) s s' x :
  for_each xs body s = Ok s' → x ∈ xs → ∃ t t', body x t = Ok t'.
Proof.
  revert s. induction xs as [|y xs IH]; intros s; simpl.
  { by intros _ ?%elem_of_nil. }
  destruct (body y s) as [t|e] eqn:Hy; [|done].
  intros Hrun [->|Hin]%elem_of_cons; [by exists s, t|by eapply IH].
Qed.

(** C1. Take a ground-truth box that the function reaches: the images
    before its image were processed, and so were the boxes before it in
    its image. Its reduced vector is no longer than the class table, as
    the hierarchy helper promises. If the original class name is not
    the name of a non-background class with a non-zero entry, the step
    for the box raises the assertion and so does the whole function. If
    it is, the step returns and the loop goes on with the boxes after it.
    Whatever the helper does, the function returns a result only when the
    original class of every box is the name of such a class. *)
Theorem gt_original_class_assertion :
  (∀ pre image_pre gtb image_post post infos boxes,
     length (reduced_vector_of HCH gtb) ≤ length (get_all_classes HCH) →
     prepare_ground_truth_boxes HCH pre = Ok infos →
     for_each image_pre (gtb_step HCH (get_all_classes HCH)) [] = Ok boxes →
     (¬ among_active (get_all_classes HCH) (reduced_vector_of HCH gtb)
          (original_class_of HCH gtb) →
        gtb_step HCH (get_all_classes HCH) gtb boxes
          = Err (AssertionError assert_msg)
        ∧ prepare_ground_truth_boxes HCH
            (pre ++ (image_pre ++ gtb :: image_post) :: post)
          = Err (AssertionError assert_msg))
     ∧ (among_active (get_all_classes HCH) (reduced_vector_of HCH gtb)
          (original_class_of HCH gtb) →
        ∃ boxes',
          gtb_step HCH (get_all_classes HCH) gtb boxes = Ok boxes'
          ∧ for_each (image_pre ++ gtb :: image_post)
                     (gtb_step HCH (get_all_classes HCH)) []
            = for_each image_post (gtb_step HCH (get_all_classes HCH)) boxes'))
  ∧ (∀ (gtbs : list (list gt_row)) all_gt_infos image_gtbs gtb,
       prepare_ground_truth_boxes HCH gtbs = Ok all_gt_infos →
       image_gtbs ∈ gtbs → gtb ∈ image_gtbs →
       among_active (get_all_classes HCH) (reduced_vector_of HCH gtb)
         (original_class_of HCH gtb)).
Proof.
  split.
  - intros pre image_pre gtb image_post post infos boxes Hlen Hpre Himg.
    split; intros Hin.
    + pose proof (gtb_step_fail _ gtb boxes Hlen Hin) as Hfail.
      split; [done|]. unfold prepare_ground_truth_boxes in *.
      eapply for_each_first_error; [exact Hpre|].
      unfold image_step.
      by rewrite (for_each_first_error image_pre gtb image_post _ _ _ _ Himg Hfail).
    + destruct (gtb_step_pass _ gtb boxes Hlen Hin) as (derived & Hok & _).
      exists (boxes ++ derived). split; [done|].
      rewrite for_each_app, Himg. simpl. by rewrite Hok.
  - intros gtbs infos image_gtbs gtb Hrun Himg Hgtb.
    unfold prepare_ground_truth_boxes in Hrun.
    destruct (for_each_Ok_elem _ _ _ _ _ Hrun Himg) as (t & t' & Hstep).
    unfold image_step in Hstep.
    apply bind_Ok in Hstep as (boxes & Hboxes & _).
    destruct (for_each_Ok_elem _ _ _ _ _ Hboxes Hgtb) as (bs & bs' & Hbox).
    by eapply gtb_step_Ok.
Qed.

(** The boxes loop of an image whose boxes all pass: it returns the derived
    boxes, at least one per ground-truth box. *)
Lemma boxes_loop_spec image_gtbs :
  image_well_mapped HCH image_gtbs →
  ∃ boxes,
    for_each image_gtbs (gtb_step HCH (get_all_classes HCH)) [] = Ok boxes
    ∧ (image_gtbs ≠ [] → boxes ≠ [])
    ∧ Forall (λ b : lbox, ∃ gtb i, gtb ∈ image_gtbs
                ∧ active (reduced_vector_of HCH gtb) i ∧ b = (gtb.1, of_nat i)) boxes.
Proof.
  intros Hwm.
  pose (I := λ (k : nat) (boxes : list lbox),
    (0 < k → boxes ≠ [])
    ∧ Forall (λ b : lbox, ∃ gtb i, gtb ∈ image_gtbs
                ∧ active (reduced_vector_of HCH gtb) i ∧ b = (gtb.1, of_nat i)) boxes).
  destruct (for_each_total I image_gtbs (gtb_step HCH (get_all_classes HCH)) [])
    as (boxes & Hrun & Hne & Hall).
  - split; [lia|constructor].
  - intros k gtb boxes Hk [Hne Hall].
    assert (Hin : gtb ∈ image_gtbs) by (apply list_elem_of_lookup; eauto).
    destruct (Hwm gtb Hin) as [Hlen Hact].
    destruct (gtb_step_pass _ gtb boxes Hlen Hact) as (derived & Hstep & Hd & Hall').
    eexists. split; [done|]. split.
    + intros _ []%app_eq_nil. done.
    + apply Forall_app. split; [done|]. eapply Forall_impl; [done|].
      intros b (i & ? & ?). eauto.
  - exists boxes. split_and!; [done| |done].
    intros Hnil. apply Hne. destruct image_gtbs; [done|simpl; lia].
Qed.

Lemma initial_infos_lookup (classes : list string) c :
  c ∈ classes →
  (list_to_map ((λ key, (key, [])) <$> classes) : gmap string (list gt_info)) !! c
    = Some [].
Proof.
  induction classes as [|c' classes IH]; [by intros ?%elem_of_nil|].
  intros Hin. simpl. destruct (decide (c' = c)) as [->|Hne].
  - by rewrite lookup_insert_eq.
  - rewrite lookup_insert_ne; [|done]. apply IH.
    by apply elem_of_cons in Hin as [->|].
Qed.

(** The loop over the classes: one record is appended to the list of each
    class but the first, and nothing else changes. *)
Lemma cls_loop_spec classes boxes (infos : gmap string (list gt_info)) :
  NoDup classes →
  (∀ c, c ∈ classes → is_Some (infos !! c)) →
  ∃ infos',
    for_each (imap pair classes) (cls_step boxes) infos = Ok infos'
    ∧ ∀ j c, classes !! j = Some c →
        infos' !! c = if decide (1 ≤ j)
                      then (λ l, l ++ [gt_record boxes j]) <$> infos !! c
                      else infos !! c.
Proof.
  intros Hnd Hkeys.
  pose (I := λ (k : nat) (t : gmap string (list gt_info)),
    ∀ j c, classes !! j = Some c →
      t !! c = if decide (1 ≤ j < k)
               then (λ l, l ++ [gt_record boxes j]) <$> infos !! c
               else infos !! c).
  destruct (for_each_total I (imap pair classes) (cls_step boxes) infos)
    as (infos' & Hrun & Hinv).
  - intros j c Hj. case_decide; [lia|done].
  - intros k [k' ck] t Hk Ht. rewrite list_lookup_imap in Hk.
    destruct (classes !! k) as [c|] eqn:Hc; [|done].
    simpl in Hk. injection Hk as <- <-.
    destruct k as [|k]; simpl.
    { eexists. split; [done|]. intros j c' Hj. rewrite (Ht j c' Hj).
      repeat case_decide; done || lia. }
    rewrite (Ht _ _ Hc). case_decide; [lia|].
    destruct (Hkeys c) as [l Hl]; [apply list_elem_of_lookup; eauto|].
    rewrite Hl. eexists. split; [done|]. intros j c' Hj.
    destruct (decide (c' = c)) as [->|Hne].
    + assert (j = S k) as -> by (eapply NoDup_lookup; eauto).
      rewrite lookup_insert_eq, Hl. case_decide; [done|lia].
    + rewrite lookup_insert_ne by done. rewrite (Ht j c' Hj).
      assert (j ≠ S k) by congruence.
      repeat case_decide; done || lia.
  - exists infos'. split; [done|]. intros j c Hj. rewrite (Hinv j c Hj).
    apply lookup_lt_Some in Hj as Hlt. rewrite length_imap.
    repeat case_decide; done || lia.
Qed.

Lemma image_step_empty classes infos :
  image_step HCH classes [] infos = Err ValueError.
Proof. done. Qed.

Lemma boxes_of_class_none (boxes : list lbox) (image_gtbs : list gt_row) j :
  Forall (λ b : lbox, ∃ gtb i, gtb ∈ image_gtbs
            ∧ active (reduced_vector_of HCH gtb) i ∧ b = (gtb.1, of_nat i)) boxes →
  (∀ gtb, gtb ∈ image_gtbs → ¬ active (reduced_vector_of HCH gtb) j) →
  boxes_of_class boxes j = [].
Proof.
  intros Hall Hno. unfold boxes_of_class.
  induction Hall as [|b boxes (gtb & i & Hin & Hact & ->) _ IH]; [done|].
  simpl. rewrite Qeq_bool_of_nat. case_bool_decide as Hij; [|done].
  subst. by destruct (Hno gtb Hin).
Qed.

(** C3. The class names are distinct, every image has at least one
    ground-truth box and every box passes the check of its original
    class. Then the function returns, and in its result the list of every
    class but the first has one record per image, in the order of the
    images: its boxes are the derived boxes of the image with that class
    index, and its [difficult] and [det] flags are one [False] per box.
    For an image without a box of the class the three fields are empty. *)
Theorem gt_one_record_per_image (gtbs : list (list gt_row)) :
  NoDup (get_all_classes HCH) →
  (∀ image_gtbs, image_gtbs ∈ gtbs →
     image_gtbs ≠ [] ∧ image_well_mapped HCH image_gtbs) →
  ∃ all_gt_infos,
    prepare_ground_truth_boxes HCH gtbs = Ok all_gt_infos
    ∧ ∀ j c, get_all_classes HCH !! j = Some c → 1 ≤ j →
        ∃ recs, all_gt_infos !! c = Some recs
          ∧ length recs = length gtbs
          ∧ ∀ i image_gtbs, gtbs !! i = Some image_gtbs →
              ∃ boxes r,
                for_each image_gtbs (gtb_step HCH (get_all_classes HCH)) [] = Ok boxes
                ∧ recs !! i = Some r
                ∧ bbox r = boxes_of_class boxes j
                ∧ difficult r = replicate (length (bbox r)) false
                ∧ det r = replicate (length (bbox r)) false
                ∧ ((∀ gtb, gtb ∈ image_gtbs →
                      ¬ active (reduced_vector_of HCH gtb) j) →
                   bbox r = [] ∧ difficult r = [] ∧ det r = []).
Proof.
  intros Hnd Himgs. unfold prepare_ground_truth_boxes.
  set (classes := get_all_classes HCH) in *.
  pose (I := λ (k : nat) (infos : gmap string (list gt_info)),
    (∀ c, c ∈ classes → is_Some (infos !! c))
    ∧ ∀ j c, classes !! j = Some c → 1 ≤ j →
        ∃ recs, infos !! c = Some recs ∧ length recs = k
          ∧ ∀ i image_gtbs, i < k → gtbs !! i = Some image_gtbs →
              ∃ boxes,
                for_each image_gtbs (gtb_step HCH classes) [] = Ok boxes
                ∧ recs !! i = Some (gt_record boxes j)).
  destruct (for_each_total I gtbs (image_step HCH classes)
              (list_to_map ((λ key, (key, [])) <$> classes)))
    as (infos & Hrun & Hkeys & Hrecs).
  - split.
    + intros c Hc. by rewrite initial_infos_lookup.
    + intros j c Hj _. exists []. rewrite initial_infos_lookup
        by (apply list_elem_of_lookup; eauto).
      split_and!; [done..|]. intros; lia.
  - intros k image_gtbs infos Hk [Hkeys Hrecs].
    destruct (Himgs image_gtbs) as [Hne Hwm]; [apply list_elem_of_lookup; eauto|].
    destruct (boxes_loop_spec image_gtbs Hwm) as (boxes & Hboxes & Hbne & _).
    specialize (Hbne Hne).
    destruct (cls_loop_spec classes boxes infos Hnd Hkeys) as (infos' & Hcls & Hlook).
    exists infos'. split.
    { unfold image_step. fold classes in Hboxes. rewrite Hboxes. simpl.
      destruct boxes; [done|]. simpl. exact Hcls. }
    split.
    + intros c [j Hj]%list_elem_of_lookup. rewrite (Hlook j c Hj).
      destruct (Hkeys c) as [l Hl]; [apply list_elem_of_lookup; eauto|].
      rewrite Hl. by case_decide.
    + intros j c Hj Hj1. rewrite (Hlook j c Hj).
      destruct (Hrecs j c Hj Hj1) as (recs & -> & Hlen & Hold).
      case_decide; [|lia]. simpl. eexists. split; [done|].
      split; [rewrite length_app; simpl; lia|].
      intros i img Hi Himg. destruct (decide (i = k)) as [->|].
      * assert (img = image_gtbs) as -> by congruence.
        exists boxes. split; [by fold classes in Hboxes|].
        rewrite lookup_app_r by lia. by replace (k - length recs) with 0 by lia.
      * destruct (Hold i img) as (bs & ? & ?); [lia|done|].
        exists bs. split; [done|]. by rewrite lookup_app_l by lia.
  - exists infos. split; [done|]. intros j c Hj Hj1.
    destruct (Hrecs j c Hj Hj1) as (recs & Hc & Hlen & Hall).
    exists recs. split_and!; [done..|]. intros i image_gtbs Hi.
    destruct (Hall i image_gtbs) as (boxes & Hboxes & Hr);
      [by eapply lookup_lt_Some|done|].
    exists boxes, (gt_record boxes j). split_and!; [done..|].
    intros Hno.
    destruct (Himgs image_gtbs) as [_ Hwm]; [apply list_elem_of_lookup; eauto|].
    destruct (boxes_loop_spec image_gtbs Hwm) as (boxes' & Hboxes' & _ & Hfa).
    fold classes in Hboxes'. assert (boxes' = boxes) as -> by congruence.
    simpl. by rewrite (boxes_of_class_none boxes image_gtbs j Hfa Hno).
Qed.

Lemma for_each_fails {A St} (xs : list A) (body : A → St → result St) x s :
  x ∈ xs → (∀ t, ∃ e, body x t = Err e) → ∃ e, for_each xs body s = Err e.
Proof.
  intros Hin Hx. revert s. induction xs as [|y xs IH]; intros s.
  { by apply elem_of_nil in Hin. }
  simpl. destruct (body y s) as [t|e] eqn:Hy; [|eauto].
  apply elem_of_cons in Hin as [->|Hin]; [|by apply IH].
  destruct (Hx s) as [e He]. congruence.
Qed.

(** C9. An input with an image that has no ground-truth box never yields
    a result; when the images before it are processed, the failure is the
    [ValueError] of concatenating an empty list. So a result implies that
    every image has a box. *)
Theorem gt_empty_image_fails (gtbs : list (list gt_row)) :
  ([] ∈ gtbs → ∃ e, prepare_ground_truth_boxes HCH gtbs = Err e)
  ∧ (∀ pre post all_gt_infos,
       gtbs = pre ++ [] :: post →
       prepare_ground_truth_boxes HCH pre = Ok all_gt_infos →
       prepare_ground_truth_boxes HCH gtbs = Err ValueError)
  ∧ (∀ all_gt_infos,
       prepare_ground_truth_boxes HCH gtbs = Ok all_gt_infos →
       ∀ image_gtbs, image_gtbs ∈ gtbs → image_gtbs ≠ []).
Proof.
  assert (Hfail : [] ∈ gtbs → ∃ e, prepare_ground_truth_boxes HCH gtbs = Err e).
  { intros Hin. unfold prepare_ground_truth_boxes.
    eapply for_each_fails; [done|]. intros t. by exists ValueError. }
  split_and!; [done| |].
  - intros pre post infos -> Hpre. unfold prepare_ground_truth_boxes in *.
    by eapply for_each_first_error.
  - intros infos Hok img Hin ->. destruct (Hfail Hin) as [e He]. congruence.
Qed.

End GroundTruthFacts.

Lemma sample_pear_not_active :
  ¬ among_active Sample.classes (reduced_vector_of Sample.HCH Sample.pear_gtb)
      (original_class_of Sample.HCH Sample.pear_gtb).
Proof.
  intros (i & (Hi & v & Hv & Hnz) & Hc).
  do 4 (destruct i as [|i]; [simpl in *; congruence|]). done.
Qed.

Lemma sample_apple_active :
  among_active Sample.classes (reduced_vector_of Sample.HCH Sample.apple_gtb)
    (original_class_of Sample.HCH Sample.apple_gtb).
Proof. exists 2. split; [split; [lia|exists 1%Q; done]|done]. Qed.

Lemma gt_original_class_assertion_witness :
  prepare_ground_truth_boxes Sample.HCH [[Sample.apple_gtb; Sample.pear_gtb]]
    = Err (AssertionError assert_msg)
  ∧ (∃ boxes', gtb_step Sample.HCH Sample.classes Sample.apple_gtb [] = Ok boxes')
  ∧ among_active Sample.classes (reduced_vector_of Sample.HCH Sample.apple_gtb)
      (original_class_of Sample.HCH Sample.apple_gtb).
Proof.
  split_and!.
  - eapply (proj1 (gt_original_class_assertion Sample.HCH)
              [] [Sample.apple_gtb] Sample.pear_gtb [] []).
    + vm_compute. lia.
    + reflexivity.
    + reflexivity.
    + exact sample_pear_not_active.
  - edestruct (proj1 (gt_original_class_assertion Sample.HCH)
                 [] [] Sample.apple_gtb [] []) as [_ Hpass].
    + vm_compute. lia.
    + reflexivity.
    + reflexivity.
    + destruct (Hpass sample_apple_active) as (boxes' & Hstep & _). by exists boxes'.
  - eapply (proj2 (gt_original_class_assertion Sample.HCH)
              [[Sample.apple_gtb]] _ [Sample.apple_gtb] Sample.apple_gtb).
    + reflexivity.
    + apply list_elem_of_In. simpl. tauto.
    + apply list_elem_of_In. simpl. tauto.
Defined.

Lemma sample_orange_active :
  among_active Sample.classes (reduced_vector_of Sample.HCH Sample.orange_gtb)
    (original_class_of Sample.HCH Sample.orange_gtb).
Proof. exists 3. split; [split; [lia|exists 1%Q; done]|done]. Qed.

Lemma sample_gtbs_well_mapped image_gtbs :
  image_gtbs ∈ Sample.gtbs → image_gtbs ≠ [] ∧ image_well_mapped Sample.HCH image_gtbs.
Proof.
  unfold Sample.gtbs. rewrite !elem_of_cons, elem_of_nil.
  intros [->|[->|[]]]; (split; [done|]); intros gtb;
    rewrite ?elem_of_cons, elem_of_nil; intros Hin;
    (split; [destruct Hin as [->|Hin]; [|try destruct Hin as [->|[]]];
               vm_compute; lia|]).
  - destruct Hin as [->|[]]. exact sample_apple_active.
  - destruct Hin as [->|[->|[]]];
      [exact sample_orange_active|exact sample_apple_active].
Qed.

Lemma gt_one_record_per_image_witness :
  ∃ all_gt_infos,
    prepare_ground_truth_boxes Sample.HCH Sample.gtbs = Ok all_gt_infos
    ∧ ∃ recs, all_gt_infos !! "orange" = Some recs ∧ length recs = 2.
Proof.
  destruct (gt_one_record_per_image Sample.HCH Sample.gtbs)
    as (infos & Hrun & Hall).
  - by apply (bool_decide_unpack _).
  - exact sample_gtbs_well_mapped.
  - exists infos. split; [done|].
    destruct (Hall 3 "orange" eq_refl) as (recs & Hrecs & Hlen & _); [lia|].
    by exists recs.
Defined.

Lemma gt_empty_image_fails_witness :
  (∃ e, prepare_ground_truth_boxes Sample.HCH [[Sample.apple_gtb]; []] = Err e)
  ∧ prepare_ground_truth_boxes Sample.HCH [[Sample.apple_gtb]; []] = Err ValueError
  ∧ [Sample.apple_gtb] ≠ [].
Proof.
  split_and!.
  - apply (proj1 (gt_empty_image_fails Sample.HCH [[Sample.apple_gtb]; []])).
    apply list_elem_of_In. simpl. tauto.
  - eapply (proj1 (proj2 (gt_empty_image_fails Sample.HCH [[Sample.apple_gtb]; []]))
              [[Sample.apple_gtb]] []); reflexivity.
  - eapply (proj2 (proj2 (gt_empty_image_fails Sample.HCH [[Sample.apple_gtb]]))).
    + reflexivity.
    + apply list_elem_of_In. simpl. tauto.
Defined.

(** ** Prediction assembly *)

Section PredictionFacts.
Variable HCH : HierarchyHelper.

Lemma label_loop_from roi rv a k preds :
  a + k ≤ length rv →
  for_each (seq a k) (label_step roi rv) preds
    = Ok (preds ++ emitted_from roi a (take k (drop a rv))).
Proof.
  revert a preds. induction k as [|k IH]; intros a preds Hle; simpl.
  { by rewrite app_nil_r. }
  destruct (lookup_lt_is_Some_2 rv a) as [v Hv]; [lia|].
  unfold label_step at 1, index. rewrite Hv. simpl.
  rewrite (drop_S _ _ _ Hv). simpl.
  destruct (Qeq_bool v 0); simpl; rewrite IH by lia; [done|].
  by rewrite <- app_assoc.
Qed.

(** The label loop of a region whose reduced vector has the configured
    length appends its triples. *)
Lemma label_loop_spec roi rv preds :
  for_each (range 0 (length rv)) (label_step roi rv) preds
    = Ok (preds ++ emitted_from roi 0 rv).
Proof.
  unfold range. rewrite label_loop_from by lia.
  by rewrite Nat.sub_0_r, drop_0, firstn_all.
Qed.

Lemma roi_step_Ok n output rois roi_i preds preds' :
  roi_step HCH n output rois roi_i preds = Ok preds' →
  ∃ pv roi, output !! roi_i = Some pv ∧ rois !! roi_i = Some roi
    ∧ length (reduced_p_vector_of HCH pv) = n
    ∧ preds' = preds ++ region_rows HCH (pv, roi).
Proof.
  unfold roi_step, index.
  destruct (output !! roi_i) as [pv|]; [|done].
  destruct (rois !! roi_i) as [roi|]; [|done]. simpl.
  fold (reduced_p_vector_of HCH pv).
  destruct (Nat.eqb_spec (length (reduced_p_vector_of HCH pv)) n) as [<-|]; [|done].
  simpl. rewrite label_loop_spec. intros [= <-]. by exists pv, roi.
Qed.

(** The assertion of a region: a reduced vector of another length than
    [num_classes] stops the step, whatever was collected before. *)
Lemma roi_step_mismatch n output rois roi_i preds pv roi :
  output !! roi_i = Some pv → rois !! roi_i = Some roi →
  length (reduced_p_vector_of HCH pv) ≠ n →
  roi_step HCH n output rois roi_i preds = Err (AssertionError "").
Proof.
  intros Hpv Hroi Hne. unfold roi_step, index. rewrite Hpv, Hroi. simpl.
  fold (reduced_p_vector_of HCH pv).
  by destruct (Nat.eqb_spec (length (reduced_p_vector_of HCH pv)) n).
Qed.

(** The loop over the regions of an image, when it ends normally. *)
Lemma roi_loop_spec n output rois preds :
  for_each (range 0 (length output)) (roi_step HCH n output rois) [] = Ok preds →
  length output ≤ length rois
  ∧ Forall (λ pv, length (reduced_p_vector_of HCH pv) = n) output
  ∧ preds = image_rows HCH (zip output rois).
Proof.
  intros Hrun.
  pose (I := λ (k : nat) (ps : list pred_row),
    k ≤ length rois
    ∧ Forall (λ pv, length (reduced_p_vector_of HCH pv) = n) (take k output)
    ∧ ps = image_rows HCH (take k (zip output rois))).
  apply (for_each_inv I) in Hrun.
  - rewrite length_range, Nat.sub_0_r in Hrun. destruct Hrun as (Hk & Hall & ->).
    rewrite firstn_all in Hall. split_and!; [done..|].
    rewrite firstn_all2; [done|]. rewrite length_zip. lia.
  - split_and!; [lia|by rewrite take_0|by rewrite take_0].
  - intros k x ps ps' [-> Hk]%lookup_range_Some (Hle & Hall & ->) Hstep.
    simpl in *.
    apply roi_step_Ok in Hstep as (pv & roi & Hpv & Hroi & Hlen & ->).
    split_and!.
    + apply lookup_lt_Some in Hroi. lia.
    + rewrite (take_S_r _ _ _ Hpv). apply Forall_app. split; [done|].
      by repeat constructor.
    + assert (Hz : zip output rois !! k = Some (pv, roi)).
      { apply lookup_zip_with_Some. eauto. }
      rewrite (take_S_r _ _ _ Hz). unfold image_rows.
      by rewrite fmap_app, concat_app; simpl; rewrite app_nil_r.
Qed.

(** The loop over the classes of one image writes cell [img_i] of every
    row but the first. *)
Lemma assign_loop_spec preds img_i n N (all_boxes : list (list (list det_row))) :
  length all_boxes = n →
  (∀ c row, all_boxes !! c = Some row → length row = N) →
  img_i < N →
  ∃ all_boxes',
    for_each (range 1 n) (assign_step preds img_i) all_boxes = Ok all_boxes'
    ∧ length all_boxes' = n
    ∧ ∀ c row, all_boxes !! c = Some row →
        all_boxes' !! c
        = Some (if decide (1 ≤ c) then <[img_i := preds_of_class preds c]> row
                else row).
Proof.
  intros Hlen Hrows Hi.
  pose (I := λ (k : nat) (t : list (list (list det_row))),
    length t = n
    ∧ ∀ c row, all_boxes !! c = Some row →
        t !! c = Some (if decide (1 ≤ c < 1 + k)
                       then <[img_i := preds_of_class preds c]> row else row)).
  destruct (for_each_total I (range 1 n) (assign_step preds img_i) all_boxes)
    as (t & Hrun & Hlen' & Hinv).
  - split; [done|]. intros c row Hc. case_decide; [lia|done].
  - intros k x t [-> Hk]%lookup_range_Some [Hlen' Hinv].
    destruct (lookup_lt_is_Some_2 all_boxes (1 + k)) as [row Hrow]; [lia|].
    unfold assign_step, index. rewrite (Hinv _ _ Hrow).
    case_decide; [lia|]. simpl. rewrite (Hrows _ _ Hrow).
    case_decide; [|lia]. eexists. split; [done|]. split.
    + by rewrite length_insert.
    + intros c row' Hc. destruct (decide (c = 1 + k)) as [->|Hne].
      * rewrite list_lookup_insert_eq by lia.
        assert (row' = row) as -> by congruence. case_decide; [done|lia].
      * rewrite list_lookup_insert_ne by done. rewrite (Hinv _ _ Hc).
        repeat case_decide; done || lia.
  - exists t. split_and!; [done..|]. intros c row Hc. rewrite (Hinv _ _ Hc).
    apply lookup_lt_Some in Hc. rewrite length_range.
    repeat case_decide; done || lia.
Qed.

Lemma np_concatenate_Ok {A} (rows rows' : list A) :
  np_concatenate rows = Ok rows' → rows' = rows ∧ rows ≠ [].
Proof. destruct rows; [done|]. by intros [= <-]. Qed.

(** What a normal end of [prepare_predictions] says about its input and
    its result: every image has its boxes, every reduced vector has
    [num_classes] entries, every image yields at least one triple, and
    the cell of class [c] and image [i] holds the detections of that class
    from the regions of that image. *)
Lemma prepare_predictions_spec outputs roiss n all_boxes :
  prepare_predictions HCH outputs roiss n = Ok all_boxes →
  length all_boxes = n
  ∧ (∀ i output, outputs !! i = Some output →
       ∃ rois, roiss !! i = Some rois
         ∧ length output ≤ length rois
         ∧ Forall (λ pv, length (reduced_p_vector_of HCH pv) = n) output
         ∧ image_rows HCH (zip output rois) ≠ [])
  ∧ ∀ c row, all_boxes !! c = Some row →
      length row = length outputs
      ∧ ∀ i output rois, outputs !! i = Some output → roiss !! i = Some rois →
          row !! i = Some (detections HCH c (zip output rois)).
Proof.
  unfold prepare_predictions. intros Hrun.
  pose (I := λ (k : nat) (t : list (list (list det_row))),
    length t = n
    ∧ (∀ i output, i < k → outputs !! i = Some output →
         ∃ rois, roiss !! i = Some rois
           ∧ length output ≤ length rois
           ∧ Forall (λ pv, length (reduced_p_vector_of HCH pv) = n) output
           ∧ image_rows HCH (zip output rois) ≠ [])
    ∧ ∀ c row, t !! c = Some row →
        length row = length outputs
        ∧ (∀ i, k ≤ i → i < length outputs → row !! i = Some [])
        ∧ ∀ i output rois, i < k →
            outputs !! i = Some output → roiss !! i = Some rois →
            row !! i = Some (detections HCH c (zip output rois))).
  apply (for_each_inv I) in Hrun.
  - rewrite length_range, Nat.sub_0_r in Hrun.
    destruct Hrun as (Hlen & Himgs & Hinv). split_and!; [done| |].
    + intros i output Hi. apply (Himgs i output); [|done].
      by apply lookup_lt_Some in Hi.
    + intros c row Hc. destruct (Hinv c row Hc) as (Hrow & _ & Hcells).
      split; [done|]. intros i output rois Hi Hr.
      apply (Hcells i output rois); [by apply lookup_lt_Some in Hi|done..].
  - split_and!; [by rewrite length_replicate|intros; lia|].
    intros c row [-> _]%lookup_replicate. rewrite length_replicate.
    split_and!; [done| |intros; lia].
    intros i _ Hi. by apply lookup_replicate_2.
  - intros k x t t' [-> Hk]%lookup_range_Some (Hlen & Himgs & Hinv) Hstep.
    simpl in *. unfold img_step, index in Hstep.
    destruct (outputs !! k) as [output|] eqn:Hout; [|done].
    destruct (roiss !! k) as [rois|] eqn:Hrois; [|done]. simpl in Hstep.
    apply bind_Ok in Hstep as (preds & Hroi & Hstep).
    apply bind_Ok in Hstep as (preds' & [-> Hne]%np_concatenate_Ok & Hstep).
    apply roi_loop_spec in Hroi as (Hle & Hall & ->).
    destruct (assign_loop_spec (image_rows HCH (zip output rois)) k n
                (length outputs) t Hlen) as (t'' & Hrun' & Hlen' & Hcells);
      [intros c row Hc; by destruct (Hinv c row Hc)|lia|].
    assert (t'' = t') as -> by congruence.
    split_and!; [done| |].
    { intros i output' Hi Hout'. destruct (decide (i = k)) as [->|Hik].
      - assert (output' = output) as -> by congruence. by exists rois.
      - apply Himgs; [lia|done]. }
    intros c row' Hc'.
    destruct (lookup_lt_is_Some_2 t c) as [row Hc];
      [apply lookup_lt_Some in Hc'; lia|].
    destruct (Hinv c row Hc) as (Hrow & Hrest & Hdone).
    rewrite (Hcells c row Hc) in Hc'. injection Hc' as <-.
    split_and!.
    + case_decide; [by rewrite length_insert|done].
    + intros i Hki Hi. case_decide.
      * rewrite list_lookup_insert_ne by lia. apply Hrest; lia.
      * apply Hrest; lia.
    + intros i output' rois' Hi Hout' Hrois'.
      destruct (decide (i = k)) as [->|Hik].
      * assert (output' = output) as -> by congruence.
        assert (rois' = rois) as -> by congruence.
        unfold detections. case_decide.
        -- rewrite list_lookup_insert_eq by lia. case_decide; [lia|done].
        -- case_decide; [|lia]. apply Hrest; lia.
      * specialize (Hdone i output' rois').
        case_decide; [rewrite list_lookup_insert_ne by done|]; apply Hdone;
          done || lia.
Qed.

Lemma range_split a k b :
  a ≤ k → k < b → range a b = range a k ++ k :: range (S k) b.
Proof.
  intros Hak Hkb. unfold range.
  replace (b - a) with ((k - a) + S (b - S k)) by lia.
  rewrite seq_app. simpl. by replace (a + (k - a)) with k by lia.
Qed.

(** C2. A region that the function reaches and whose reduced vector has
    another length than [num_classes] makes the function raise the
    assertion: the images before it were processed, and so were the
    regions before it in its image. So whenever the function returns,
    every reduced vector has exactly [num_classes] entries. *)
Theorem predictions_length_assertion outputs roiss num_classes :
  (∀ img_i output rois roi_i pred_vector roi all_boxes preds_for_img,
     outputs !! img_i = Some output → roiss !! img_i = Some rois →
     output !! roi_i = Some pred_vector → rois !! roi_i = Some roi →
     for_each (range 0 img_i) (img_step HCH num_classes outputs roiss)
              (replicate num_classes (replicate (length outputs) []))
       = Ok all_boxes →
     for_each (range 0 roi_i) (roi_step HCH num_classes output rois) []
       = Ok preds_for_img →
     length (reduced_p_vector_of HCH pred_vector) ≠ num_classes →
     roi_step HCH num_classes output rois roi_i preds_for_img
       = Err (AssertionError "")
     ∧ prepare_predictions HCH outputs roiss num_classes
       = Err (AssertionError ""))
  ∧ (∀ all_boxes,
       prepare_predictions HCH outputs roiss num_classes = Ok all_boxes →
       ∀ output pred_vector, output ∈ outputs → pred_vector ∈ output →
         length (reduced_p_vector_of HCH pred_vector) = num_classes).
Proof.
  split.
  - intros k output rois j pv roi t preds Hout Hrois Hpv Hroi Himgs Hregs Hne.
    pose proof (roi_step_mismatch num_classes output rois j preds pv roi
                  Hpv Hroi Hne) as Hstep.
    split; [done|]. unfold prepare_predictions.
    rewrite (range_split 0 k (length outputs));
      [|lia|by eapply lookup_lt_Some].
    eapply for_each_first_error; [exact Himgs|].
    unfold img_step, index. rewrite Hout, Hrois. simpl.
    rewrite (range_split 0 j (length output)); [|lia|by eapply lookup_lt_Some].
    by rewrite (for_each_first_error _ _ _ _ _ _ _ Hregs Hstep).
  - intros all_boxes Hrun output pv [i Hi]%list_elem_of_lookup Hpv.
    apply prepare_predictions_spec in Hrun as (_ & Himgs & _).
    destruct (Himgs i output Hi) as (rois & _ & _ & Hall & _).
    by eapply Forall_forall in Hall.
Qed.

Lemma preds_of_class_app preds1 preds2 c :
  preds_of_class (preds1 ++ preds2) c
  = preds_of_class preds1 c ++ preds_of_class preds2 c.
Proof. unfold preds_of_class. by rewrite List.filter_app, fmap_app. Qed.

Lemma emitted_from_zeros roi i rest :
  forallb (λ w, Qeq_bool w 0) rest = true → emitted_from roi i rest = [].
Proof.
  revert i. induction rest as [|w rest IH]; intros i; simpl; [done|].
  intros [-> Hrest]%andb_true_iff. by apply IH.
Qed.

(** The triples of a region with all its mass on background carry label 0,
    so no class selects one of them. *)
Lemma background_region_rows region c :
  background_only (reduced_p_vector_of HCH region.1) = true →
  1 ≤ c →
  preds_of_class (region_rows HCH region) c = [].
Proof.
  unfold region_rows. destruct (reduced_p_vector_of HCH region.1) as [|v rest];
    [done|]. simpl. intros [_ Hrest]%andb_true_iff Hc.
  rewrite (emitted_from_zeros _ _ _ Hrest), app_nil_r.
  destruct (Qeq_bool v 0); [done|]. unfold preds_of_class. simpl.
  rewrite Qeq_bool_of_nat. case_bool_decide; [lia|done].
Qed.

Lemma image_rows_cons region regions :
  image_rows HCH (region :: regions)
  = region_rows HCH region ++ image_rows HCH regions.
Proof. done. Qed.

Lemma detections_skip_background c regions :
  detections HCH c regions
  = detections HCH c
      (List.filter (λ region, negb (background_only (reduced_p_vector_of HCH region.1)))
                   regions).
Proof.
  unfold detections. case_decide; [done|].
  induction regions as [|region regions IH]; [done|].
  rewrite image_rows_cons, preds_of_class_app, IH. simpl List.filter.
  destruct (background_only _) eqn:Hbg; simpl negb; cbv iota.
  - rewrite background_region_rows by (done || lia). done.
  - by rewrite image_rows_cons, preds_of_class_app.
Qed.

(** C4. In a result of [prepare_predictions], the cell of every class
    and image is what the regions of the image yield once those with
    all their mass on background are left out; none of the triples of
    such a region is selected for a class. *)
Theorem background_region_no_detection outputs roiss num_classes all_boxes :
  prepare_predictions HCH outputs roiss num_classes = Ok all_boxes →
  (∀ region c,
     background_only (reduced_p_vector_of HCH region.1) = true → 1 ≤ c →
     preds_of_class (region_rows HCH region) c = [])
  ∧ ∀ i output rois c row,
      outputs !! i = Some output → roiss !! i = Some rois →
      all_boxes !! c = Some row →
      row !! i
      = Some (detections HCH c
                (List.filter
                   (λ region, negb (background_only
                                      (reduced_p_vector_of HCH region.1)))
                   (zip output rois))).
Proof.
  intros Hrun. split; [apply background_region_rows|].
  intros i output rois c row Hout Hrois Hc.
  apply prepare_predictions_spec in Hrun as (_ & _ & Hcells).
  destruct (Hcells c row Hc) as [_ Hcell].
  rewrite (Hcell i output rois Hout Hrois). f_equal.
  apply detections_skip_background.
Qed.

(** C10. In a result of [prepare_predictions] the row of class 0, which
    exists when there is a class, still holds the empty list for every
    image, although the label loop does append a triple for a non-zero
    background entry to the list of the image. *)
Theorem background_row_never_populated outputs roiss num_classes all_boxes :
  prepare_predictions HCH outputs roiss num_classes = Ok all_boxes →
  (0 < num_classes → is_Some (all_boxes !! 0))
  ∧ (∀ row, all_boxes !! 0 = Some row → row = replicate (length outputs) [])
  ∧ (∀ roi reduced_p_vector v preds_for_img,
       reduced_p_vector !! 0 = Some v → Qeq_bool v 0 = false →
       label_step roi reduced_p_vector 0 preds_for_img
       = Ok (preds_for_img ++ [(roi, v, of_nat 0)])).
Proof.
  intros Hrun. apply prepare_predictions_spec in Hrun as (Hlen & Himgs & Hcells).
  split_and!.
  - intros Hn. apply lookup_lt_is_Some_2. lia.
  - intros row Hrow. destruct (Hcells 0 row Hrow) as [Hlenr Hcell].
    apply list_eq. intros i. destruct (decide (i < length outputs)) as [Hi|Hi].
    + rewrite lookup_replicate_2 by done.
      destruct (lookup_lt_is_Some_2 outputs i Hi) as [output Hout].
      destruct (Himgs i output Hout) as (rois & Hrois & _).
      by rewrite (Hcell i output rois Hout Hrois).
    + rewrite !lookup_ge_None_2; [done|rewrite length_replicate; lia|lia].
  - intros roi rv v preds Hv Hnz. unfold label_step, index.
    by rewrite Hv; simpl; rewrite Hnz.
Qed.

End PredictionFacts.

Lemma predictions_length_assertion_witness :
  prepare_predictions Sample.HCH [[Sample.apple_vector; Sample.short_vector]]
                      Sample.roiss 4
    = Err (AssertionError "")
  ∧ length (reduced_p_vector_of Sample.HCH Sample.apple_vector) = 4.
Proof.
  split.
  - eapply (proj1 (predictions_length_assertion Sample.HCH
                     [[Sample.apple_vector; Sample.short_vector]] Sample.roiss 4)
              0 _ _ 1 Sample.short_vector Sample.unit_box);
      try reflexivity. vm_compute. lia.
  - eapply (proj2 (predictions_length_assertion Sample.HCH
                     Sample.outputs Sample.roiss 4)).
    + reflexivity.
    + apply list_elem_of_In. simpl. left. reflexivity.
    + apply list_elem_of_In. simpl. right. left. reflexivity.
Defined.

Lemma background_region_no_detection_witness :
  preds_of_class (region_rows Sample.HCH (Sample.background_vector, Sample.unit_box)) 2
    = []
  ∧ ∃ all_boxes row,
      prepare_predictions Sample.HCH Sample.outputs Sample.roiss 4 = Ok all_boxes
      ∧ all_boxes !! 2 = Some row
      ∧ row !! 0 = Some [(Sample.unit_box, (1 # 2)%Q)].
Proof.
  split.
  - eapply (proj1 (background_region_no_detection Sample.HCH
                     Sample.outputs Sample.roiss 4 _ eq_refl)).
    + reflexivity.
    + lia.
  - eexists _, _. split; [reflexivity|]. split; [reflexivity|].
    exact (proj2 (background_region_no_detection Sample.HCH
                    Sample.outputs Sample.roiss 4 _ eq_refl)
             0 _ _ 2 _ eq_refl eq_refl eq_refl).
Defined.

Lemma background_row_never_populated_witness :
  ∃ all_boxes,
    prepare_predictions Sample.HCH Sample.outputs Sample.roiss 4 = Ok all_boxes
    ∧ all_boxes !! 0 = Some [[]].
Proof.
  eexists. split; [reflexivity|].
  destruct (background_row_never_populated Sample.HCH
              Sample.outputs Sample.roiss 4 _ eq_refl) as (Hrow & Hcells & _).
  destruct Hrow as [row Hrow]; [lia|]. by rewrite Hrow, (Hcells row Hrow).
Defined.

(** ** Coordinates *)

Lemma center_to_corner_row (p : coords) :
  ordered_corners p →
  coords_eq
    (Coords ((c0 p + c2 p) / 2 - Qabs (c2 p - c0 p) / 2)
            ((c1 p + c3 p) / 2 - Qabs (c3 p - c1 p) / 2)
            ((c0 p + c2 p) / 2 + Qabs (c2 p - c0 p) / 2)
            ((c1 p + c3 p) / 2 + Qabs (c3 p - c1 p) / 2))%Q
    p.
Proof.
  intros [Hx Hy]. unfold coords_eq. cbn [c0 c1 c2 c3].
  assert (Hw : (Qabs (c2 p - c0 p) == c2 p - c0 p)%Q) by (apply Qabs_pos; lra).
  assert (Hh : (Qabs (c3 p - c1 p) == c3 p - c1 p)%Q) by (apply Qabs_pos; lra).
  revert Hw Hh. generalize (Qabs (c2 p - c0 p)) (Qabs (c3 p - c1 p)).
  intros w h Hw Hh. repeat split; rewrite ?Hw, ?Hh; field.
Qed.

(** C8. For an array of boxes in corner form with [xmax >= xmin] and
    [ymax >= ymin], [points_to_xywh] followed by the [centered_coords]
    conversion of [to_image_input_coordinates], with every other adaption
    off, returns the coordinates it started from, as rational numbers. *)
Theorem corner_center_roundtrip (points : list (coords * list Q)) :
  Forall (λ p, ordered_corners p.1) points →
  ∃ out,
    to_image_input_coordinates (fst <$> points_to_xywh points)
                               None false true None true false = Ok out
    ∧ Forall2 coords_eq out (fst <$> points).
Proof.
  intros Hall. eexists. split; [reflexivity|].
  induction Hall as [|p points Hp _ IH]; simpl; constructor; [|exact IH].
  by apply center_to_corner_row.
Qed.

Lemma corner_center_roundtrip_witness :
  ∃ out,
    to_image_input_coordinates
      (fst <$> points_to_xywh [(Coords (1 # 4) (1 # 3) (3 # 4) 1, [(9 # 10)%Q])])
      None false true None true false = Ok out
    ∧ Forall2 coords_eq out [Coords (1 # 4) (1 # 3) (3 # 4) 1].
Proof.
  apply (corner_center_roundtrip [(Coords (1 # 4) (1 # 3) (3 # 4) 1, [(9 # 10)%Q])]).
  repeat constructor; simpl; lra.
Defined.

(** ** Drawing *)

Lemma py_int_div a b : 0 < b → py_int (of_nat a / of_nat b) = Z.of_nat (a / b).
Proof.
  intros Hb. destruct b as [|b]; [lia|].
  unfold py_int, of_nat, Qdiv, Qinv, Qmult, inject_Z. simpl Qnum. simpl Qden.
  rewrite Z.mul_1_r, Pos.mul_1_l, Z.quot_div_nonneg by lia.
  by rewrite Nat2Z.inj_div.
Qed.

Lemma draw_step_spec w h bb_list name n j events row :
  bb_list !! j = Some row → 0 < n →
  draw_step w h bb_list name n j events = Ok (events ++ box_events w h name n j row).
Proof.
  intros Hrow Hn. unfold draw_step, index, box_events, pixel_corners, rank_color.
  rewrite Hrow. simpl. rewrite !py_int_div by done. f_equal.
  set (xmin := py_int (inject_Z w * (c0 row.1 - c2 row.1 / 2))).
  set (ymin := py_int (inject_Z h * (c1 row.1 - c3 row.1 / 2))).
  set (xmax := py_int (inject_Z w * (c0 row.1 + c2 row.1 / 2))).
  set (ymax := py_int (inject_Z h * (c1 row.1 + c3 row.1 / 2))).
  replace (if (w <=? xmax)%Z then (w - 1)%Z else xmax) with (Z.min (w - 1) xmax)
    by (destruct (Z.leb_spec w xmax); lia).
  replace (if (h <=? ymax)%Z then (h - 1)%Z else ymax) with (Z.min (h - 1) ymax)
    by (destruct (Z.leb_spec h ymax); lia).
  replace (if (xmin <? 0)%Z then 0%Z else xmin) with (Z.max 0 xmin)
    by (destruct (Z.ltb_spec xmin 0); lia).
  replace (if (ymin <? 0)%Z then 0%Z else ymin) with (Z.max 0 ymin)
    by (destruct (Z.ltb_spec ymin 0); lia).
  destruct name, (out_of_bounds w h xmin ymin xmax ymax);
    by rewrite <- ?app_assoc.
Qed.

Lemma imap_take_S {A B} (f : nat → A → B) (l : list A) k x :
  l !! k = Some x → imap f (take (S k) l) = imap f (take k l) ++ [f k x].
Proof.
  intros Hx. rewrite (take_S_r _ _ _ Hx), imap_app. simpl.
  rewrite length_take_le by (apply lookup_lt_Some in Hx; lia).
  by rewrite Nat.add_0_r.
Qed.

(** C7, as the code has it. On an image of at least two rows the function
    returns, and it prints and draws, box after box in the order of the
    list, the events of [box_events]: a box with a corner out of the
    bounds gets the message and is drawn all the same, with its corners
    clamped; a box within the bounds is drawn with its own corners and
    without a message; the colour is that of the rank of the box, and the
    name, when there is one, is put at the lower left corner. *)
Theorem draw_bb_on_image_events {pixel} (image : list (list pixel)) row1
    (bb_list : list (coords * list Q)) (name : option string) :
  image !! 1 = Some row1 →
  draw_bb_on_image image bb_list name
  = Ok (concat (imap (box_events (Z.of_nat (length row1)) (Z.of_nat (length image))
                                 name (length bb_list)) bb_list))
  ∧ ∀ j row xmin ymin xmax ymax,
      bb_list !! j = Some row →
      pixel_corners (Z.of_nat (length row1)) (Z.of_nat (length image)) row.1
        = (xmin, ymin, xmax, ymax) →
      let color := rank_color j (length bb_list) in
      let text pt := match name with Some t => [PutText t pt color] | None => [] end in
      box_events (Z.of_nat (length row1)) (Z.of_nat (length image))
                 name (length bb_list) j row
      = if box_in_bounds (Z.of_nat (length row1)) (Z.of_nat (length image)) row
        then Rectangle (xmin, ymin) (xmax, ymax) color :: text (xmin, ymax)
        else Print_out_of_bounds xmin ymin xmax ymax
             :: Rectangle (Z.max 0 xmin, Z.max 0 ymin)
                          (Z.min (Z.of_nat (length row1) - 1) xmax,
                           Z.min (Z.of_nat (length image) - 1) ymax) color
             :: text (Z.max 0 xmin, Z.min (Z.of_nat (length image) - 1) ymax).
Proof.
  intros Hrow1. set (w := Z.of_nat (length row1)). set (h := Z.of_nat (length image)).
  split.
  - unfold draw_bb_on_image, index. rewrite Hrow1. simpl. fold w h.
    pose (I := λ (k : nat) (events : list draw_event),
      events = concat (imap (box_events w h name (length bb_list)) (take k bb_list))).
    destruct (for_each_total I (range 0 (length bb_list))
                (draw_step w h bb_list name (length bb_list)) [])
      as (events & -> & Hev).
    + done.
    + intros k x events [-> Hk]%lookup_range_Some ->. simpl in *.
      destruct (lookup_lt_is_Some_2 bb_list k) as [row Hrow]; [lia|].
      rewrite (draw_step_spec _ _ _ _ _ _ _ row Hrow) by lia.
      eexists. split; [done|]. unfold I.
      rewrite (imap_take_S _ _ _ _ Hrow), concat_app. simpl.
      by rewrite app_nil_r.
    + rewrite length_range, Nat.sub_0_r in Hev. unfold I in Hev.
      by rewrite firstn_all in Hev; subst.
  - intros j row xmin ymin xmax ymax Hrow Hpx color text.
    unfold box_events, box_in_bounds. rewrite Hpx. fold color.
    destruct (out_of_bounds w h xmin ymin xmax ymax) eqn:Hoob; simpl; [done|].
    unfold out_of_bounds in Hoob.
    apply orb_false_elim in Hoob as [Hoob Hy0].
    apply orb_false_elim in Hoob as [Hoob Hx0].
    apply orb_false_elim in Hoob as [Hx1 Hy1].
    apply Z.leb_gt in Hx1, Hy1. apply Z.ltb_ge in Hx0, Hy0.
    rewrite !Z.max_r, !Z.min_r by lia. done.
Qed.

Lemma draw_bb_on_image_events_witness :
  draw_bb_on_image Sample.image [Sample.inner_box; Sample.wide_box] (Some "apple")
  = Ok [Rectangle (0, 0)%Z (2, 1)%Z (255, 255, 0)%Z;
        PutText "apple" (0, 1)%Z (255, 255, 0)%Z;
        Print_out_of_bounds (-1) 0 4 1;
        Rectangle (0, 0)%Z (2, 1)%Z (255, 128, 127)%Z;
        PutText "apple" (0, 1)%Z (255, 128, 127)%Z].
Proof.
  exact (proj1 (draw_bb_on_image_events Sample.image [(); (); ()]
                  [Sample.inner_box; Sample.wide_box] (Some "apple") eq_refl)).
Defined.

(** C7 with "skipped" fails: the box that is wider than the image is out
    of the bounds, and its rectangle is drawn. *)
Lemma draw_out_of_bounds_not_skipped :
  ¬ skips_out_of_bounds Sample.image [Sample.wide_box] (Some "apple").
Proof.
  intros Hskip. specialize (Hskip [(); (); ()] _ eq_refl eq_refl).
  vm_compute in Hskip. discriminate.
Qed.

(** ** The evaluation driver *)

Lemma np_nanmean_skips_nan l1 l2 :
  np_nanmean (l1 ++ NaN :: l2) = np_nanmean (l1 ++ l2).
Proof. unfold np_nanmean, not_nan. by rewrite !omap_app. Qed.

Lemma report_loop_spec (aps : gmap string ap_value) classes st st' :
  for_each classes (report_step aps) st = Ok st'
  ↔ ∃ ap_list,
      Forall2 (λ c ap, aps !! c = Some ap) (non_background classes) ap_list
      ∧ st' = (st.1 ++ ap_list,
               st.2 ++ zip_with Print_AP (non_background classes) ap_list).
Proof.
  revert st. induction classes as [|c classes IH]; intros [aps0 out0]; simpl.
  - split.
    + intros [= <-]. exists []. split; [constructor|]. by rewrite !app_nil_r.
    + intros (ap_list & ->%Forall2_nil_inv_l & ->). by rewrite !app_nil_r.
  - unfold report_step at 1. destruct (String.eqb c "__background__"); simpl.
    { apply IH. }
    destruct (aps !! c) as [ap|] eqn:Hc; simpl.
    + rewrite IH. simpl. split.
      * intros (ap_list & Hall & ->). exists (ap :: ap_list).
        split; [by constructor|]. simpl. by rewrite <- !app_assoc.
      * intros (ap_list & Hall & ->).
        apply Forall2_cons_inv_l in Hall as (ap' & ap_list' & Hap & Hall & ->).
        assert (ap' = ap) as -> by congruence.
        exists ap_list'. split; [done|]. simpl. by rewrite <- !app_assoc.
    + split; [done|]. intros (ap_list & Hall & _).
      apply Forall2_cons_inv_l in Hall as (ap' & _ & Hap & _). congruence.
Qed.

Lemma reported_APs_lines cs (l : list ap_value) :
  reported_APs (zip_with Print_AP cs l) = zip cs l.
Proof.
  revert l. induction cs as [|c cs IH]; intros [|ap l]; simpl; [done..|].
  unfold reported_APs in *. simpl. by rewrite IH.
Qed.

Lemma reported_means_lines cs (l : list ap_value) :
  reported_means (zip_with Print_AP cs l) = [].
Proof.
  revert l. induction cs as [|c cs IH]; intros [|ap l]; simpl; [done..|].
  unfold reported_means in *. simpl. by rewrite IH.
Qed.

Lemma reported_APs_app out1 out2 :
  reported_APs (out1 ++ out2) = reported_APs out1 ++ reported_APs out2.
Proof. apply omap_app. Qed.

Lemma reported_means_app out1 out2 :
  reported_means (out1 ++ out2) = reported_means out1 ++ reported_means out2.
Proof. apply omap_app. Qed.

Section DriverFacts.
Variable HCH : HierarchyHelper.
Variables source minibatch : Type.
Variable next_minibatch : source → minibatch * source.
Variable roi_stream : minibatch → nat → list gt_row.
Variable frcn_eval : minibatch → network_output.
Variable evaluate_detections :
  list (list (list det_row)) → gmap string (list gt_info) → list string →
  gmap string ap_value.

(** The loop over the test images always ends normally, after ten
    iterations, and prints neither an AP nor a mean. *)
Lemma inference_loop_spec cfg src :
  ∃ raw,
    inference_loop _ _ next_minibatch roi_stream frcn_eval cfg src = Ok raw
    ∧ length (all_raw_gt_boxes raw) = 10
    ∧ length (all_raw_outputs raw) = 10
    ∧ length (all_raw_rois raw) = 10
    ∧ reported_APs (stdout raw) = []
    ∧ reported_means (stdout raw) = [].
Proof.
  unfold inference_loop.
  pose (I := λ (k : nat) (raw : raw_data source),
    length (all_raw_gt_boxes raw) = k
    ∧ length (all_raw_outputs raw) = k
    ∧ length (all_raw_rois raw) = k
    ∧ reported_APs (stdout raw) = []
    ∧ reported_means (stdout raw) = []).
  apply (for_each_total I (range 0 10)); [done|].
  intros k x raw _ (Hgt & Hout & Hrois & Haps & Hmeans).
  unfold inference_step. destruct (next_minibatch (source_state raw)) as [mb src'].
  eexists. split; [done|]. unfold I. simpl. rewrite !length_app. simpl.
  split_and!; [lia..| |];
    destruct (_ && _); unfold reported_APs, reported_means in *;
    rewrite ?omap_app; simpl; by rewrite ?Haps, ?Hmeans.
Qed.

(** C6, as the code has it. With a configuration of five test images
    the loop still runs ten times: it ends normally with ten entries of
    ground truth, of raw outputs and of region boxes. The number of
    iterations is the constant of line 164, not the configured one. *)
Theorem inference_loop_ignores_config src :
  ∃ raw,
    inference_loop _ _ next_minibatch roi_stream frcn_eval Sample.cfg src = Ok raw
    ∧ length (all_raw_gt_boxes raw) = 10
    ∧ length (all_raw_outputs raw) = 10
    ∧ length (all_raw_rois raw) = 10
    ∧ DATA_NUM_TEST_IMAGES Sample.cfg = 5.
Proof.
  destruct (inference_loop_spec Sample.cfg src) as (raw & ? & ? & ? & ? & _).
  by exists raw.
Qed.

(** C5. When every class but [__background__] has an AP, the report
    returns: it prints one AP line for each of these classes, in their
    order, and then the mean, which is [np.nanmean] of the values of
    these lines. A run of the driver that returns has printed exactly
    these AP lines and this one mean. In the mean a NaN entry counts
    neither in the sum nor in the number of values. *)
Theorem mean_ap_report cfg src (aps : gmap string ap_value) out :
  (∀ classes out0,
     (∀ c, c ∈ non_background classes → is_Some (aps !! c)) →
     ∃ ap_list,
       Forall2 (λ c ap, aps !! c = Some ap) (non_background classes) ap_list
       ∧ report classes aps out0
         = Ok (out0 ++ zip_with Print_AP (non_background classes) ap_list
                    ++ [Print_mean_AP (np_nanmean ap_list)]))
  ∧ (eval_fast_rcnn_mAP HCH _ _ next_minibatch roi_stream frcn_eval
                        evaluate_detections cfg src = Ok (aps, out) →
     ∃ ap_list,
       Forall2 (λ c ap, aps !! c = Some ap)
               (non_background (get_all_classes HCH)) ap_list
       ∧ reported_APs out = zip (non_background (get_all_classes HCH)) ap_list
       ∧ reported_means out = [np_nanmean ap_list])
  ∧ (∀ l1 l2, np_nanmean (l1 ++ NaN :: l2) = np_nanmean (l1 ++ l2))
  ∧ (∀ l v vs, not_nan l = v :: vs →
       np_nanmean l = AP (Qsum (v :: vs) / of_nat (length (v :: vs)))).
Proof.
  split_and!.
  - intros classes out0 Hkeys.
    assert (∃ ap_list,
      Forall2 (λ c ap, aps !! c = Some ap) (non_background classes) ap_list)
      as [ap_list Hall].
    { induction (non_background classes) as [|c cs IH]; [by exists []|].
      destruct (Hkeys c) as [ap Hap]; [by left|].
      destruct IH as [ap_list Hall]; [intros c' Hc'; apply Hkeys; by right|].
      exists (ap :: ap_list). by constructor. }
    exists ap_list. split; [done|]. unfold report.
    rewrite (proj2 (report_loop_spec aps classes ([], out0) _)
               (ex_intro _ ap_list (conj Hall eq_refl))).
    simpl. by rewrite <- app_assoc.
  - unfold eval_fast_rcnn_mAP. intros Hrun.
    destruct (inference_loop_spec cfg src) as (raw & Hraw & _ & _ & _ & Haps & Hmeans).
    rewrite Hraw in Hrun. simpl in Hrun.
    apply bind_Ok in Hrun as (all_gt_infos & _ & Hrun).
    apply bind_Ok in Hrun as (all_boxes & _ & Hrun).
    apply bind_Ok in Hrun as (out' & Hrep & [= <- <-]).
    unfold report in Hrep.
    apply bind_Ok in Hrep as ([ap_list' out1] & Hloop & [= <-]).
    apply report_loop_spec in Hloop as (ap_list & Hall & [= -> ->]).
    exists ap_list. split; [done|]. simpl.
    rewrite !reported_APs_app, !reported_means_app, Haps, Hmeans.
    rewrite reported_APs_lines, reported_means_lines. simpl.
    by rewrite app_nil_r.
  - apply np_nanmean_skips_nan.
  - intros l v vs Hl. unfold np_nanmean. by rewrite Hl.
Qed.

End DriverFacts.

Lemma mean_ap_report_witness :
  report Sample.classes Sample.aps []
  = Ok [Print_AP "fruit" (AP 1); Print_AP "apple" (AP (1 # 2)); Print_AP "orange" NaN;
        Print_mean_AP (AP ((1 + ((1 # 2) + 0)) / of_nat 2))]
  ∧ ∃ out ap_list,
      eval_fast_rcnn_mAP Sample.HCH nat nat Sample.next_minibatch Sample.roi_stream
        Sample.frcn_eval Sample.evaluate_detections Sample.cfg 0
      = Ok (Sample.aps, out)
      ∧ reported_APs out = zip (non_background Sample.classes) ap_list
      ∧ reported_means out = [np_nanmean ap_list].
Proof.
  split.
  - pose proof (proj1 (mean_ap_report Sample.HCH nat nat Sample.next_minibatch
                         Sample.roi_stream Sample.frcn_eval
                         Sample.evaluate_detections Sample.cfg 0 Sample.aps [])
                  Sample.classes []) as Hreport.
    destruct Hreport as (ap_list & Hall & Hrep).
    + unfold Sample.classes, non_background. simpl. intros c.
      rewrite !elem_of_cons, elem_of_nil. intros [->|[->|[->|[]]]]; by eexists.
    + rewrite Hrep. simpl in Hall.
      apply Forall2_cons_inv_l in Hall as (a1 & l1 & H1 & Hall & ->).
      apply Forall2_cons_inv_l in Hall as (a2 & l2 & H2 & Hall & ->).
      apply Forall2_cons_inv_l in Hall as (a3 & l3 & H3 & Hall & ->).
      apply Forall2_nil_inv_l in Hall as ->.
      vm_compute in H1, H2, H3. by simplify_eq.
  - assert (∃ out,
      eval_fast_rcnn_mAP Sample.HCH nat nat Sample.next_minibatch Sample.roi_stream
        Sample.frcn_eval Sample.evaluate_detections Sample.cfg 0
      = Ok (Sample.aps, out)) as [out Hrun]
      by (eexists; vm_compute; reflexivity).
    exists out.
    pose proof (proj1 (proj2 (mean_ap_report Sample.HCH nat nat Sample.next_minibatch
                         Sample.roi_stream Sample.frcn_eval
                         Sample.evaluate_detections Sample.cfg 0 Sample.aps out)) Hrun)
      as (ap_list & _ & Haps & Hmean).
    exists ap_list. split_and!; assumption.
Defined.

(** * Further properties *)

(** ** Scrambling the list of test images *)

Lemma py_getitem_Ok {A} (xs : list A) i y :
  py_getitem xs i = Ok y
  ↔ index_in_range (length xs) i ∧ xs !! position (length xs) i = Some y.
Proof.
  unfold py_getitem, index, index_in_range, position.
  destruct (Z.leb_spec 0 i) as [Hi|Hi].
  - destruct (xs !! Z.to_nat i) as [x|] eqn:Hx.
    + apply lookup_lt_Some in Hx as Hlt. split.
      * intros [= <-]. split; [lia|done].
      * by intros [_ [= <-]].
    + split; [done|]. by intros [_ ?].
  - destruct (Z.leb_spec (- Z.of_nat (length xs)) i) as [Hl|Hl].
    + destruct (xs !! Z.to_nat (Z.of_nat (length xs) + i)) as [x|] eqn:Hx.
      * split; [intros [= <-]; split; [lia|done]|by intros [_ [= <-]]].
      * split; [done|]. by intros [_ ?].
    + split; [done|]. intros [? _]. lia.
Qed.

Lemma py_getitem_Err {A} (xs : list A) i e :
  py_getitem xs i = Err e → e = IndexError ∧ ¬ index_in_range (length xs) i.
Proof.
  unfold py_getitem, index, index_in_range.
  destruct (Z.leb_spec 0 i) as [Hi|Hi].
  - destruct (xs !! Z.to_nat i) as [x|] eqn:Hx; [done|].
    apply lookup_ge_None in Hx. intros [= <-]. split; [done|lia].
  - destruct (Z.leb_spec (- Z.of_nat (length xs)) i) as [Hl|Hl].
    + destruct (xs !! Z.to_nat (Z.of_nat (length xs) + i)) as [x|] eqn:Hx; [done|].
      apply lookup_ge_None in Hx. lia.
    + intros [= <-]. split; [done|lia].
Qed.

Lemma py_getitem_in_range {A} (xs : list A) i :
  index_in_range (length xs) i → ∃ y, py_getitem xs i = Ok y.
Proof.
  intros Hi. destruct (py_getitem xs i) as [y|e] eqn:Hy; [by exists y|].
  by apply py_getitem_Err in Hy as [_ ?].
Qed.

Lemma scramble_loop_Ok {A} (xs : list A) perm acc out :
  for_each perm (scramble_step xs) acc = Ok out
  ↔ ∃ ys, Forall2 (λ i y, py_getitem xs i = Ok y) perm ys ∧ out = acc ++ ys.
Proof.
  revert acc. induction perm as [|i perm IH]; intros acc; simpl.
  - split.
    + intros [= <-]. exists []. by rewrite app_nil_r.
    + intros (ys & ->%Forall2_nil_inv_l & ->). by rewrite app_nil_r.
  - unfold scramble_step at 1. destruct (py_getitem xs i) as [y|e] eqn:Hy; simpl.
    + rewrite IH. split.
      * intros (ys & Hall & ->). exists (y :: ys).
        split; [by constructor|]. by rewrite <- app_assoc.
      * intros (ys & Hall & ->).
        apply Forall2_cons_inv_l in Hall as (y' & ys' & Hy' & Hall & ->).
        assert (y' = y) as -> by congruence.
        exists ys'. split; [done|]. by rewrite <- app_assoc.
    + split; [done|]. intros (ys & Hall & _).
      apply Forall2_cons_inv_l in Hall as (y' & _ & Hy' & _). congruence.
Qed.

Lemma scramble_list_Ok {A} (xs : list A) perm ys :
  _scramble_list xs perm = Ok ys
  ↔ Forall2 (λ i y, py_getitem xs i = Ok y) perm ys.
Proof.
  unfold _scramble_list. rewrite scramble_loop_Ok. split.
  - by intros (ys' & Hall & ->).
  - intros Hall. by exists ys.
Qed.

Lemma scramble_list_Err {A} (xs : list A) perm e :
  _scramble_list xs perm = Err e →
  e = IndexError ∧ ¬ Forall (index_in_range (length xs)) perm.
Proof.
  unfold _scramble_list. generalize (@nil A).
  induction perm as [|i perm IH]; intros acc; simpl; [done|].
  unfold scramble_step at 1. destruct (py_getitem xs i) as [y|e'] eqn:Hy; simpl.
  - intros [-> Hno]%IH. split; [done|]. intros Hall. apply Hno.
    by apply Forall_cons in Hall as [_ ?].
  - intros [= <-]. apply py_getitem_Err in Hy as [-> Hno]. split; [done|].
    intros Hall. by apply Forall_cons in Hall as [? _].
Qed.

(** X1. [_scramble_list] returns exactly when every index of [perm] is
    one that Python accepts for [to_sc], negative ones included; the
    result then has one element per index, the element at the position the
    index names. Otherwise the function raises [IndexError]. *)
Theorem scramble_list_spec {A} (to_sc : list A) (perm : list Z) :
  (Forall (index_in_range (length to_sc)) perm →
   ∃ out, _scramble_list to_sc perm = Ok out
     ∧ length out = length perm
     ∧ ∀ j i, perm !! j = Some i →
         out !! j = to_sc !! position (length to_sc) i)
  ∧ (¬ Forall (index_in_range (length to_sc)) perm →
     _scramble_list to_sc perm = Err IndexError).
Proof.
  split.
  - intros Hall.
    assert (∃ out, Forall2 (λ i y, py_getitem to_sc i = Ok y) perm out)
      as [out Hout].
    { induction Hall as [|i perm Hi _ [out Hout]]; [by exists []|].
      destruct (py_getitem_in_range to_sc i Hi) as [y Hy].
      exists (y :: out). by constructor. }
    exists out. split; [by apply scramble_list_Ok|].
    split; [by apply Forall2_length in Hout|].
    intros j i Hj.
    destruct (Forall2_lookup_l _ _ _ _ _ Hout Hj) as (y & Hy & Hget).
    apply py_getitem_Ok in Hget as [_ Hget]. congruence.
  - intros Hno. destruct (_scramble_list to_sc perm) as [out|e] eqn:Hrun.
    + destruct Hno. apply scramble_list_Ok in Hrun.
      induction Hrun as [|i y perm out Hy _ IH]; constructor; [|done].
      by apply py_getitem_Ok in Hy as [? _].
    + by apply scramble_list_Err in Hrun as [-> _].
Qed.

Lemma omap_id_Some {A} (l : list A) : omap id (Some <$> l) = l.
Proof. induction l as [|x l IH]; [done|]. csimpl. by f_equal. Qed.

Lemma lookup_all_positions {A} (l : list A) :
  (λ i, l !! i) <$> seq 0 (length l) = Some <$> l.
Proof.
  apply list_eq. intros i. rewrite !list_lookup_fmap.
  destruct (decide (i < length l)) as [Hi|Hi].
  - rewrite lookup_seq_lt by done. simpl.
    by destruct (lookup_lt_is_Some_2 l i Hi) as [x ->].
  - rewrite (lookup_ge_None_2 l) by lia.
    by rewrite lookup_ge_None_2 by (rewrite length_seq; lia).
Qed.

(** X2. When the indices of [perm], negative ones read from the end, name
    every position of [to_sc] once, the result is a rearrangement of
    [to_sc]: nothing is lost and nothing is repeated. *)
Theorem scramble_list_permutation {A} (to_sc : list A) (perm : list Z) :
  Forall (index_in_range (length to_sc)) perm →
  position (length to_sc) <$> perm ≡ₚ seq 0 (length to_sc) →
  ∃ out, _scramble_list to_sc perm = Ok out ∧ out ≡ₚ to_sc.
Proof.
  intros Hall Hperm.
  assert (∃ out, Forall2 (λ i y, py_getitem to_sc i = Ok y) perm out)
    as [out Hout].
  { clear Hperm. induction Hall as [|i perm' Hi _ IH]; [by exists []|].
    destruct (py_getitem_in_range to_sc i Hi) as [y Hy].
    destruct IH as [out Hout]. exists (y :: out). by constructor. }
  exists out. split; [by apply scramble_list_Ok|].
  assert (Hsome : Some <$> out
                  = (λ i, to_sc !! i) <$> (position (length to_sc) <$> perm)).
  { clear Hperm Hall.
    induction Hout as [|i y perm' out' Hy _ IH]; [done|].
    apply py_getitem_Ok in Hy as [_ Hy]. csimpl. by rewrite Hy, IH. }
  rewrite <- (omap_id_Some out), <- (omap_id_Some to_sc), Hsome, Hperm.
  by rewrite lookup_all_positions.
Qed.

Lemma py_getitem_compose {A} (xs ys : list A) (p : list Z) i :
  Forall2 (λ i y, py_getitem xs i = Ok y) p ys →
  py_getitem ys i = py_getitem p i ≫= py_getitem xs.
Proof.
  intros Hp. pose proof (Forall2_length _ _ _ Hp) as Hlen.
  destruct (py_getitem p i) as [k|e] eqn:Hk; simpl.
  - apply py_getitem_Ok in Hk as [Hi Hk].
    destruct (Forall2_lookup_l _ _ _ _ _ Hp Hk) as (y & Hy & Hget).
    rewrite Hget. apply py_getitem_Ok. by rewrite <- Hlen.
  - apply py_getitem_Err in Hk as [-> Hno].
    destruct (py_getitem ys i) as [y|e] eqn:Hy.
    + apply py_getitem_Ok in Hy as [Hi _]. rewrite <- Hlen in Hi. done.
    + by apply py_getitem_Err in Hy as [-> _].
Qed.

Lemma scramble_compose {A} (to_sc out : list A) (perm perm2 : list Z) :
  _scramble_list to_sc perm = Ok out →
  _scramble_list out perm2
  = _scramble_list perm perm2 ≫= _scramble_list to_sc.
Proof.
  intros Hp%scramble_list_Ok.
  destruct (_scramble_list out perm2) as [zs|e] eqn:Hrun.
  - apply scramble_list_Ok in Hrun.
    assert (∃ pq, Forall2 (λ i k, py_getitem perm i = Ok k) perm2 pq
                  ∧ Forall2 (λ k z, py_getitem to_sc k = Ok z) pq zs)
      as (pq & Hpq & Hzs).
    { induction Hrun as [|i z perm2' zs' Hz _ (pq & Hpq & Hzs)];
        [by exists []|].
      rewrite (py_getitem_compose to_sc out perm i Hp) in Hz.
      apply bind_Ok in Hz as (k & Hk & Hz).
      exists (k :: pq). split; by constructor. }
    apply scramble_list_Ok in Hpq, Hzs. by rewrite Hpq.
  - apply scramble_list_Err in Hrun as [-> Hno].
    destruct (_scramble_list perm perm2) as [pq|e] eqn:Hpq; simpl.
    + destruct Hno. apply scramble_list_Ok in Hpq.
      rewrite <- (Forall2_length _ _ _ Hp).
      induction Hpq as [|i k perm2' pq' Hk _ IH]; constructor; [|done].
      by apply py_getitem_Ok in Hk as [? _].
    + by apply scramble_list_Err in Hpq as [-> _].
Qed.

Lemma scramble_identity {A} (to_sc : list A) :
  _scramble_list to_sc (Z.of_nat <$> seq 0 (length to_sc)) = Ok to_sc.
Proof.
  apply scramble_list_Ok. apply Forall2_same_length_lookup_2.
  { by rewrite length_fmap, length_seq. }
  intros j i y Hi Hy. rewrite list_lookup_fmap in Hi.
  apply lookup_lt_Some in Hy as Hj. rewrite lookup_seq_lt in Hi by done.
  simpl in Hi. injection Hi as <-. apply py_getitem_Ok.
  unfold index_in_range, position. split; [lia|].
  destruct (Z.leb_spec 0 (Z.of_nat j)); [|lia]. by rewrite Nat2Z.id.
Qed.

(** X3. Scrambling twice is scrambling once by the scrambled index list:
    when the first call returns [out], scrambling [out] by [perm2] behaves,
    errors included, as scrambling [to_sc] by [perm] scrambled by [perm2].
    So a second index list that sorts [perm] gives the first list back. *)
Theorem scramble_list_compose {A} (to_sc out : list A) (perm perm2 : list Z) :
  _scramble_list to_sc perm = Ok out →
  _scramble_list out perm2
  = (_scramble_list perm perm2 ≫= _scramble_list to_sc)
  ∧ (_scramble_list perm perm2 = Ok (Z.of_nat <$> seq 0 (length to_sc)) →
     _scramble_list out perm2 = Ok to_sc).
Proof.
  intros Hout. pose proof (scramble_compose to_sc out perm perm2 Hout) as Hc.
  split; [done|]. intros Hsorted. rewrite Hc, Hsorted. simpl.
  apply scramble_identity.
Qed.

Lemma scramble_list_spec_witness :
  _scramble_list ["a"; "b"; "c"] [2; -1; 0; -3]%Z = Ok ["c"; "c"; "a"; "a"]
  ∧ _scramble_list ["a"; "b"; "c"] [0; 3]%Z = Err IndexError.
Proof.
  split.
  - destruct (proj1 (scramble_list_spec ["a"; "b"; "c"] [2; -1; 0; -3]%Z))
      as (out & Hout & _).
    + repeat constructor; simpl; lia.
    + rewrite Hout. vm_compute in Hout. by injection Hout as <-.
  - apply (proj2 (scramble_list_spec ["a"; "b"; "c"] [0; 3]%Z)).
    intros Hall. apply Forall_cons in Hall as [_ Hall].
    apply Forall_cons in Hall as [[_ H3] _]. simpl in H3. lia.
Defined.

Lemma scramble_list_permutation_witness :
  ∃ out, img_list "." = Ok out ∧ out ≡ₚ img_list_sorted ".".
Proof.
  apply (scramble_list_permutation (img_list_sorted ".") [1; 3; 2; 4; 0]%Z).
  - repeat constructor; simpl; lia.
  - simpl. by apply (bool_decide_unpack _).
Defined.

Lemma scramble_list_compose_witness :
  ∃ out, img_list "." = Ok out
    ∧ _scramble_list out [4; 0; 2; 1; 3]%Z = Ok (img_list_sorted ".").
Proof.
  eexists. split; [reflexivity|].
  apply (proj2 (scramble_list_compose (img_list_sorted ".") _
                  [1; 3; 2; 4; 0]%Z [4; 0; 2; 1; 3]%Z eq_refl)).
  reflexivity.
Defined.

(** ** More on the ground-truth expansion *)

Lemma for_each_Err_elem {A St} (xs : list A) (body : A → St → result St) s e :
  for_each xs body s = Err e → ∃ x t, x ∈ xs ∧ body x t = Err e.
Proof.
  revert s. induction xs as [|y xs IH]; intros s; simpl; [done|].
  destruct (body y s) as [t|e'] eqn:Hy.
  - intros (x & t' & Hx & Hb)%IH. exists x, t'. split; [by right|done].
  - intros [= <-]. exists y, s. split; [by left|done].
Qed.

Section GroundTruthMore.
Variable HCH : HierarchyHelper.

(** The boxes that the scan of indices [a, a + k) appends. *)
Lemma vector_loop_boxes classes co rv a k o bs o' bs' :
  for_each (seq a k) (vector_step classes co rv) (o, bs) = Ok (o', bs') →
  bs' = bs ++ ((λ i, (co, of_nat i)) <$>
               List.filter (λ i, match rv !! i with
                                 | Some v => negb (Qeq_bool v 0)
                                 | None => false
                                 end) (seq a k)).
Proof.
  revert a o bs. induction k as [|k IH]; intros a o bs; simpl.
  { intros [= <- <-]. by rewrite app_nil_r. }
  unfold vector_step at 1, index. destruct (rv !! a) as [v|]; [|done]. simpl.
  destruct (Qeq_bool v 0); simpl; [apply IH|].
  destruct (classes !! a) as [c|]; [|done]. simpl.
  intros ->%IH. by rewrite <- app_assoc.
Qed.

Lemma filter_single (P : nat → bool) j a k :
  List.filter (λ i, bool_decide (i = j) && P i) (seq a k)
  = if bool_decide (a ≤ j < a + k) && P j then [j] else [].
Proof.
  revert a. induction k as [|k IH]; intros a; simpl.
  { case_bool_decide; [lia|done]. }
  rewrite IH. case_bool_decide as Ha; simpl.
  - subst a. rewrite (bool_decide_eq_true_2 (j ≤ j < j + S k)) by lia.
    rewrite (bool_decide_eq_false_2 (S j ≤ j < S j + k)) by lia. simpl.
    by destruct (P j).
  - destruct (decide (S a ≤ j < S a + k)).
    + rewrite !bool_decide_eq_true_2 by lia. done.
    + rewrite !bool_decide_eq_false_2 by lia. done.
Qed.

Lemma filter_label_map (co : coords) j (P : nat → bool) l :
  List.filter (λ b : lbox, Qeq_bool b.2 (of_nat j))
              ((λ i, (co, of_nat i)) <$> List.filter P l)
  = (λ i, (co, of_nat i)) <$> List.filter (λ i, bool_decide (i = j) && P i) l.
Proof.
  induction l as [|i l IH]; [done|]. cbn [List.filter].
  destruct (P i); [|by rewrite andb_false_r].
  rewrite andb_true_r, fmap_cons. cbn [List.filter snd].
  rewrite Qeq_bool_of_nat, IH. by case_bool_decide.
Qed.

Lemma gtb_step_boxes classes gtb boxes boxes' j :
  gtb_step HCH classes gtb boxes = Ok boxes' →
  boxes_of_class boxes' j
  = boxes_of_class boxes j
    ++ if is_active (reduced_vector_of HCH gtb) j then [(gtb.1, of_nat j)] else [].
Proof.
  unfold gtb_step. intros Hstep.
  apply bind_Ok in Hstep as ([o bs] & Hloop & Hstep).
  apply bind_Ok in Hstep as (_ & _ & [= <-]).
  apply vector_loop_boxes in Hloop as ->.
  fold (reduced_vector_of HCH gtb). set (rv := reduced_vector_of HCH gtb).
  unfold boxes_of_class. rewrite List.filter_app. f_equal.
  unfold range.
  rewrite filter_label_map.
  rewrite filter_single. unfold is_active.
  destruct (rv !! j) as [v|] eqn:Hv; [|by rewrite !andb_false_r].
  destruct (negb (Qeq_bool v 0)); [|by rewrite !andb_false_r].
  rewrite !andb_true_r. apply lookup_lt_Some in Hv.
  destruct (decide (1 ≤ j)).
  - rewrite !bool_decide_eq_true_2 by lia. done.
  - rewrite !bool_decide_eq_false_2 by lia. done.
Qed.

Lemma boxes_loop_boxes classes image_gtbs boxes boxes' j :
  for_each image_gtbs (gtb_step HCH classes) boxes = Ok boxes' →
  boxes_of_class boxes' j
  = boxes_of_class boxes j
    ++ ((λ gtb : gt_row, (gtb.1, of_nat j))
          <$> List.filter (λ gtb, is_active (reduced_vector_of HCH gtb) j) image_gtbs).
Proof.
  revert boxes. induction image_gtbs as [|gtb image_gtbs IH]; intros boxes; simpl.
  { intros [= <-]. by rewrite app_nil_r. }
  destruct (gtb_step HCH classes gtb boxes) as [bs|] eqn:Hstep; [|done].
  intros ->%IH. rewrite (gtb_step_boxes _ _ _ _ j Hstep), <- app_assoc. f_equal.
  by destruct (is_active _ j).
Qed.

Lemma vector_loop_in_table classes co rv a k st st' :
  for_each (seq a k) (vector_step classes co rv) st = Ok st' →
  ∀ i v, a ≤ i < a + k → rv !! i = Some v → Qeq_bool v 0 = false →
    i < length classes.
Proof.
  revert a st. induction k as [|k IH]; intros a st; simpl; [intros; lia|].
  destruct (vector_step classes co rv a st) as [st1|] eqn:Hstep; [|done].
  intros Hrun i v Hi Hv Hnz. destruct (decide (i = a)) as [->|].
  - unfold vector_step, index in Hstep. rewrite Hv in Hstep. simpl in Hstep.
    rewrite Hnz in Hstep.
    destruct (classes !! a) as [c|] eqn:Hc; [|done]. by eapply lookup_lt_Some.
  - apply (IH _ _ Hrun i v); [lia|done..].
Qed.

Lemma vector_step_Err classes co rv i st e :
  vector_step classes co rv i st = Err e → e = IndexError.
Proof.
  unfold vector_step, index. destruct (rv !! i) as [v|]; simpl; [|congruence].
  destruct (Qeq_bool v 0); [done|].
  destruct (classes !! i); simpl; [done|congruence].
Qed.

Lemma cls_loop_other classes boxes (infos infos' : gmap string (list gt_info)) c :
  c ∉ classes →
  for_each (imap pair classes) (cls_step boxes) infos = Ok infos' →
  infos' !! c = infos !! c.
Proof.
  intros Hc Hrun.
  apply (for_each_inv (λ _ t, t !! c = infos !! c)) in Hrun; [done..|].
  intros k [k' ck] t t' Hk Ht. rewrite list_lookup_imap in Hk.
  destruct (classes !! k) as [c'|] eqn:Hc'; [|done].
  simpl in Hk. injection Hk as <- <-. unfold cls_step.
  destruct (k =? 0); [by intros [= <-]|].
  destruct (t !! c') as [l|]; [|done]. intros [= <-].
  rewrite lookup_insert_ne; [done|]. intros ->. apply Hc.
  apply list_elem_of_lookup. eauto.
Qed.

(** X4. With distinct class names, a result of the function is fixed by
    its input: its keys are the class names, the first class, background,
    keeps the empty list, and the list of the class of index [j] holds,
    image by image, the record of the boxes that count for [j], with their
    coordinates in the order of the image and every flag [False]. *)
Theorem gt_result_exact (gtbs : list (list gt_row)) all_gt_infos :
  NoDup (get_all_classes HCH) →
  prepare_ground_truth_boxes HCH gtbs = Ok all_gt_infos →
  (∀ j c, get_all_classes HCH !! j = Some c →
     all_gt_infos !! c
     = Some (if decide (1 ≤ j) then expected_record HCH j <$> gtbs else []))
  ∧ (∀ c, c ∉ get_all_classes HCH → all_gt_infos !! c = None).
Proof.
  intros Hnd Hrun. unfold prepare_ground_truth_boxes in Hrun.
  set (classes := get_all_classes HCH) in *.
  pose (I := λ (k : nat) (infos : gmap string (list gt_info)),
    (∀ j c, classes !! j = Some c →
       infos !! c
       = Some (if decide (1 ≤ j) then expected_record HCH j <$> take k gtbs else []))
    ∧ (∀ c, c ∉ classes → infos !! c = None)).
  apply (for_each_inv I) in Hrun.
  - destruct Hrun as [Hin Hout]. split; [|done]. intros j c Hj.
    rewrite (Hin j c Hj). by rewrite firstn_all.
  - split.
    + intros j c Hj. rewrite initial_infos_lookup
        by (apply list_elem_of_lookup; eauto).
      by case_decide.
    + intros c Hc. apply not_elem_of_list_to_map_1.
      rewrite <- list_fmap_compose. simpl. by rewrite list_fmap_id.
  - intros k image_gtbs infos infos' Hk [Hin Hout] Hstep.
    unfold image_step in Hstep.
    apply bind_Ok in Hstep as (boxes & Hboxes & Hstep).
    apply bind_Ok in Hstep as (boxes' & [-> _]%np_concatenate_Ok & Hcls).
    destruct (cls_loop_spec classes boxes infos Hnd) as (infos'' & Hcls' & Hlook).
    { intros c [j Hj]%list_elem_of_lookup. rewrite (Hin j c Hj). eauto. }
    assert (infos'' = infos') as -> by congruence.
    split.
    + intros j c Hj. rewrite (Hlook j c Hj), (Hin j c Hj).
      case_decide; [|done]. simpl. f_equal.
      rewrite (take_S_r _ _ _ Hk), fmap_app. f_equal. simpl. f_equal.
      unfold gt_record, expected_record.
      by rewrite (boxes_loop_boxes _ _ _ _ j Hboxes).
    + intros c Hc. rewrite (cls_loop_other _ _ _ _ c Hc Hcls). by apply Hout.
Qed.

(** X5. A ground-truth box that the function reaches and whose reduced
    vector has a non-zero entry beyond the class table makes the step for
    the box, and the function, raise [IndexError], whether or not the
    original class was found. *)
Theorem gt_class_table_too_short pre image_pre gtb image_post post infos boxes i :
  is_active (reduced_vector_of HCH gtb) i = true →
  length (get_all_classes HCH) ≤ i →
  prepare_ground_truth_boxes HCH pre = Ok infos →
  for_each image_pre (gtb_step HCH (get_all_classes HCH)) [] = Ok boxes →
  gtb_step HCH (get_all_classes HCH) gtb boxes = Err IndexError
  ∧ prepare_ground_truth_boxes HCH
      (pre ++ (image_pre ++ gtb :: image_post) :: post)
    = Err IndexError.
Proof.
  intros Hact Hlen Hpre Himg.
  assert (Hstep : gtb_step HCH (get_all_classes HCH) gtb boxes = Err IndexError).
  { unfold gtb_step. fold (reduced_vector_of HCH gtb).
    set (rv := reduced_vector_of HCH gtb) in *.
    destruct (for_each (range 1 (length rv)) _ _) as [st|e] eqn:Hloop.
    - unfold is_active in Hact. apply andb_true_iff in Hact as [Hi%bool_decide_eq_true Hv].
      destruct (rv !! i) as [v|] eqn:Hrv; [|done].
      apply negb_true_iff in Hv. apply lookup_lt_Some in Hrv as Hlt.
      pose proof (vector_loop_in_table _ _ _ _ _ _ _ Hloop i v) as Hin.
      unfold range in Hloop. specialize (Hin ltac:(lia) Hrv Hv). lia.
    - apply for_each_Err_elem in Hloop as (x & t & _ & Hx).
      by apply vector_step_Err in Hx as ->. }
  split; [done|]. unfold prepare_ground_truth_boxes in *.
  eapply for_each_first_error; [exact Hpre|]. unfold image_step.
  by rewrite (for_each_first_error image_pre gtb image_post _ _ _ _ Himg Hstep).
Qed.

End GroundTruthMore.

Lemma gt_result_exact_witness :
  ∃ all_gt_infos,
    prepare_ground_truth_boxes Sample.HCH Sample.gtbs = Ok all_gt_infos
    ∧ all_gt_infos !! "orange"
      = Some [GtInfo [] [] [];
              GtInfo [(Sample.unit_box, of_nat 3)] [false] [false]]
    ∧ all_gt_infos !! "__background__" = Some [].
Proof.
  eexists. split; [reflexivity|].
  assert (Hnd : NoDup (get_all_classes Sample.HCH)) by by apply (bool_decide_unpack _).
  pose proof (gt_result_exact Sample.HCH Sample.gtbs _ Hnd eq_refl) as [Hin _].
  split.
  - exact (Hin 3 "orange" eq_refl).
  - exact (Hin 0 "__background__" eq_refl).
Defined.

Lemma gt_class_table_too_short_witness :
  prepare_ground_truth_boxes Sample.HCH_short [[Sample.apple_gtb]] = Err IndexError.
Proof.
  eapply (gt_class_table_too_short Sample.HCH_short [] [] Sample.apple_gtb [] []
            _ [] 2); first [reflexivity | simpl; lia].
Defined.

(** ** More on the prediction assembly *)

Section PredictionMore.
Variable HCH : HierarchyHelper.




Lemma emitted_from_nil roi a rv :
  emitted_from roi a rv = [] ↔ ¬ Exists (λ v, Qeq_bool v 0 = false) rv.
Proof.
  revert a. induction rv as [|v rest IH]; intros a; simpl.
  { split; [by intros _ ?%Exists_nil|done]. }
  rewrite Exists_cons. destruct (Qeq_bool v 0); simpl.
  - rewrite IH. split; [by intros ? [|]|]. intros Hno Hex. apply Hno. by right.
  - split; [done|]. intros Hno. destruct Hno. by left.
Qed.

Lemma image_rows_nil regions :
  image_rows HCH regions = []
  ↔ ¬ Exists (λ region : list Q * coords,
                Exists (λ v, Qeq_bool v 0 = false)
                       (reduced_p_vector_of HCH region.1)) regions.
Proof.
  induction regions as [|region regions IH].
  { split; [by intros _ ?%Exists_nil|done]. }
  rewrite image_rows_cons, Exists_cons. split.
  - intros [Hr Hrs]%app_eq_nil. apply emitted_from_nil in Hr. apply IH in Hrs.
    by intros [|].
  - intros Hno. unfold region_rows.
    rewrite (proj2 (emitted_from_nil _ _ _)), (proj2 IH); [done|..].
    + intros Hex. apply Hno. by right.
    + intros Hex. apply Hno. by left.
Qed.

Lemma image_rows_zip output rois :
  length output ≤ length rois →
  image_rows HCH (zip output rois) ≠ []
  ↔ Exists (λ pv, Exists (λ v, Qeq_bool v 0 = false) (reduced_p_vector_of HCH pv))
           output.
Proof.
  intros Hle. rewrite image_rows_nil.
  rewrite <- (fst_zip output rois) at 2 by done. rewrite Exists_fmap.
  split; [|by intros ? ?]. intros Hnn.
  by destruct (decide (Exists (λ region : list Q * coords,
                 Exists (λ v, Qeq_bool v 0 = false)
                        (reduced_p_vector_of HCH region.1)) (zip output rois))).
Qed.

Lemma roi_loop_total n output rois :
  length output ≤ length rois →
  Forall (λ pv, length (reduced_p_vector_of HCH pv) = n) output →
  for_each (range 0 (length output)) (roi_step HCH n output rois) []
  = Ok (image_rows HCH (zip output rois)).
Proof.
  intros Hle Hall.
  destruct (for_each_total (λ _ _, True) (range 0 (length output))
              (roi_step HCH n output rois) []) as (preds & Hrun & _); [done| |].
  - intros k x preds [-> Hk]%lookup_range_Some _. simpl in *.
    destruct (lookup_lt_is_Some_2 output k) as [pv Hpv]; [lia|].
    destruct (lookup_lt_is_Some_2 rois k) as [roi Hroi]; [lia|].
    unfold roi_step, index. rewrite Hpv, Hroi. simpl.
    fold (reduced_p_vector_of HCH pv).
    rewrite Forall_lookup in Hall. rewrite <- (Hall k pv Hpv), Nat.eqb_refl. simpl.
    rewrite label_loop_spec. eauto.
  - rewrite Hrun. by apply roi_loop_spec in Hrun as (_ & _ & ->).
Qed.

(** X7. [prepare_predictions] returns a result exactly when every image
    has its list of boxes, with a box for every region, every reduced
    vector has [num_classes] entries, and every image has a region with an
    entry that is not zero. *)
Theorem predictions_returns_iff outputs roiss num_classes :
  (∃ all_boxes, prepare_predictions HCH outputs roiss num_classes = Ok all_boxes)
  ↔ ∀ i output, outputs !! i = Some output →
      ∃ rois, roiss !! i = Some rois ∧ image_ready HCH num_classes output rois.
Proof.
  split.
  - intros [all_boxes (_ & Himgs & _)%prepare_predictions_spec] i output Hout.
    destruct (Himgs i output Hout) as (rois & Hrois & Hle & Hall & Hne).
    exists rois. split; [done|]. split_and!; [done..|].
    exact (proj1 (image_rows_zip _ _ Hle) Hne).
  - intros Hready. unfold prepare_predictions.
    pose (I := λ (k : nat) (t : list (list (list det_row))),
      length t = num_classes
      ∧ ∀ c row, t !! c = Some row → length row = length outputs).
    destruct (for_each_total I (range 0 (length outputs))
                (img_step HCH num_classes outputs roiss)
                (replicate num_classes (replicate (length outputs) [])))
      as (all_boxes & Hrun & _); [| |by exists all_boxes].
    + split; [by rewrite length_replicate|].
      intros c row [-> _]%lookup_replicate. by rewrite length_replicate.
    + intros k x t [-> Hk]%lookup_range_Some [Hlen Hrows]. simpl in *.
      destruct (lookup_lt_is_Some_2 outputs k) as [output Hout]; [lia|].
      destruct (Hready k output Hout) as (rois & Hrois & Hle & Hall & Hex).
      unfold img_step, index. rewrite Hout, Hrois. simpl.
      rewrite (roi_loop_total _ _ _ Hle Hall). simpl.
      apply (proj2 (image_rows_zip _ _ Hle)) in Hex.
      destruct (image_rows HCH (zip output rois)) as [|r rs] eqn:Hrs; [done|].
      simpl.
      destruct (assign_loop_spec (r :: rs) k num_classes (length outputs) t
                  Hlen Hrows) as (t' & -> & Hlen' & Hcells); [lia|].
      exists t'. split; [done|]. split; [done|]. intros c row' Hc'.
      destruct (lookup_lt_is_Some_2 t c) as [row Hc];
        [apply lookup_lt_Some in Hc'; lia|].
      rewrite (Hcells c row Hc) in Hc'. injection Hc' as <-.
      case_decide; [rewrite length_insert|]; by eapply Hrows.
Qed.

(** X8. What stops [prepare_predictions] at an image that it reaches,
    the images before it being processed: no list of boxes for the image,
    [IndexError]; no region in the image, [ValueError]; regions with no
    entry other than zero, [ValueError] as well. *)
Theorem predictions_image_failures outputs roiss num_classes img_i output all_boxes :
  outputs !! img_i = Some output →
  for_each (range 0 img_i) (img_step HCH num_classes outputs roiss)
           (replicate num_classes (replicate (length outputs) []))
    = Ok all_boxes →
  (roiss !! img_i = None →
   prepare_predictions HCH outputs roiss num_classes = Err IndexError)
  ∧ (∀ rois, roiss !! img_i = Some rois →
       length output ≤ length rois →
       Forall (λ pv, length (reduced_p_vector_of HCH pv) = num_classes) output →
       Forall (λ pv, Forall (λ v, Qeq_bool v 0 = true) (reduced_p_vector_of HCH pv))
              output →
       prepare_predictions HCH outputs roiss num_classes = Err ValueError).
Proof.
  intros Hout Hpre. unfold prepare_predictions.
  rewrite (range_split 0 img_i (length outputs)); [|lia|by eapply lookup_lt_Some].
  split.
  - intros Hrois. eapply for_each_first_error; [exact Hpre|].
    unfold img_step, index. by rewrite Hout, Hrois.
  - intros rois Hrois Hle Hall Hzero.
    eapply for_each_first_error; [exact Hpre|].
    unfold img_step, index. rewrite Hout, Hrois. simpl.
    rewrite (roi_loop_total _ _ _ Hle Hall). simpl.
    assert (image_rows HCH (zip output rois) = []) as ->; [|done].
    destruct (image_rows HCH (zip output rois)) eqn:Hrs; [done|].
    assert (Hne : image_rows HCH (zip output rois) ≠ []) by by rewrite Hrs.
    apply (proj1 (image_rows_zip _ _ Hle)) in Hne.
    apply Exists_exists in Hne as (pv & Hpv & Hex).
    rewrite Forall_forall in Hzero. specialize (Hzero pv Hpv).
    apply Exists_exists in Hex as (v & Hv & Hnz).
    rewrite Forall_forall in Hzero. specialize (Hzero v Hv). congruence.
Qed.

End PredictionMore.


Lemma predictions_returns_iff_witness :
  ∃ all_boxes, prepare_predictions Sample.HCH Sample.outputs Sample.roiss 4 = Ok all_boxes.
Proof.
  apply (proj2 (predictions_returns_iff Sample.HCH Sample.outputs Sample.roiss 4)).
  intros [|i] output Hout; [|done]. injection Hout as <-.
  exists [Sample.unit_box; Sample.unit_box]. split; [done|].
  split_and!.
  - simpl. lia.
  - by repeat constructor.
  - apply Exists_cons. left. apply Exists_cons. by left.
Defined.

Lemma predictions_image_failures_witness :
  prepare_predictions Sample.HCH [[Sample.apple_vector]; []] [[Sample.unit_box]] 4
    = Err IndexError
  ∧ prepare_predictions Sample.HCH [[Sample.apple_vector]; []] [[Sample.unit_box]; []] 4
    = Err ValueError.
Proof.
  split.
  - eapply (proj1 (predictions_image_failures Sample.HCH
                     [[Sample.apple_vector]; []] [[Sample.unit_box]] 4 1 [] _
                     eq_refl eq_refl)).
    reflexivity.
  - eapply (proj2 (predictions_image_failures Sample.HCH
                     [[Sample.apple_vector]; []] [[Sample.unit_box]; []] 4 1 [] _
                     eq_refl eq_refl) []).
    + reflexivity.
    + simpl. lia.
    + constructor.
    + constructor.
Defined.

(** ** More on the coordinates *)

(** X9. What [to_image_input_coordinates] needs: absolute coordinates
    without [img_dims] raise [TypeError]; relative or absolute coordinates
    without [img_input_dims] never give a result; and with everything off
    and no [img_dims] the call returns, with the coordinates as they are
    unless they are centred. *)
Theorem to_image_input_needs_dims (coords_ : list coords) :
  (∀ relative_coord centered_coords img_input_dims needs_padding_adaption,
     to_image_input_coordinates coords_ None relative_coord centered_coords
       img_input_dims needs_padding_adaption true = Err TypeError)
  ∧ (∀ img_dims relative_coord centered_coords needs_padding_adaption is_absolute out,
       relative_coord || is_absolute = true →
       to_image_input_coordinates coords_ img_dims relative_coord centered_coords
         None needs_padding_adaption is_absolute ≠ Ok out)
  ∧ (∀ img_input_dims needs_padding_adaption,
       to_image_input_coordinates coords_ None false false
         img_input_dims needs_padding_adaption false = Ok coords_).
Proof.
  split_and!.
  - done.
  - intros img_dims relative_coord centered_coords needs_padding is_absolute out Hrel.
    unfold to_image_input_coordinates.
    set (cs := if centered_coords then _ else coords_). clearbody cs.
    destruct is_absolute.
    + destruct img_dims as [[d0 d1]|]; [|done]. simpl.
      destruct needs_padding; [|done].
      destruct (Qlt_le_dec d1 d0); [by destruct (py_div d1 d0)|].
      destruct (Qlt_le_dec d0 d1); [by destruct (py_div d0 d1)|done].
    + rewrite orb_false_r in Hrel. subst relative_coord. simpl.
      destruct needs_padding; [|done].
      destruct img_dims as [[d0 d1]|]; [|done].
      destruct (Qlt_le_dec d1 d0); [by destruct (py_div d1 d0)|].
      destruct (Qlt_le_dec d0 d1); [by destruct (py_div d0 d1)|done].
  - intros img_input_dims needs_padding. unfold to_image_input_coordinates. simpl.
    by destruct needs_padding.
Qed.

Lemma to_image_input_needs_dims_witness :
  to_image_input_coordinates [Sample.unit_box] (Some (4, 3)%Q) true false
    None true false ≠ Ok [].
Proof.
  by apply (proj1 (proj2 (to_image_input_needs_dims [Sample.unit_box]))).
Defined.

Lemma Qdiv_unit x w : (0 < w → 0 <= x <= w → 0 <= x / w <= 1)%Q.
Proof.
  intros Hw [H0 H1]. split.
  - apply Qle_shift_div_l; [done|]. by rewrite Qmult_0_l.
  - apply Qle_shift_div_r; [done|]. by rewrite Qmult_1_l.
Qed.

Lemma pad_unit y r : (0 <= r <= 1 → 0 <= y <= 1 → 0 <= y * r + (1 - r) / 2 <= 1)%Q.
Proof.
  intros [Hr0 Hr1] [Hy0 Hy1].
  assert (0 <= y * r)%Q by (apply Qmult_le_0_compat; done).
  assert (y * r <= 1 * r)%Q by (apply Qmult_le_compat_r; done).
  assert (Hhalf : ((1 - r) / 2 == (1 - r) * (1 # 2))%Q) by reflexivity.
  rewrite Hhalf. split; lra.
Qed.

Lemma scale_unit u W : (0 <= W → 0 <= u <= 1 → 0 <= u * W <= W)%Q.
Proof.
  intros HW [Hu0 Hu1]. split.
  - by apply Qmult_le_0_compat.
  - rewrite <- (Qmult_1_l W) at 2. by apply Qmult_le_compat_r.
Qed.

Lemma ratio_unit a b : (0 < a → a < b → 0 <= a / b <= 1)%Q.
Proof. intros Ha Hab. apply Qdiv_unit; lra. Qed.

(** X10. Absolute boxes that lie within an image of positive width and
    height are mapped, through the padding to a square, to boxes that lie
    within the input of the network: the call returns, and no coordinate
    leaves the frame of [img_input_dims]. *)
Theorem absolute_boxes_stay_inside (coords_ : list coords) (w h W H : Q)
    (relative_coord : bool) :
  (0 < w)%Q → (0 < h)%Q → (0 <= W)%Q → (0 <= H)%Q →
  Forall (inside w h) coords_ →
  ∃ out,
    to_image_input_coordinates coords_ (Some (w, h)) relative_coord false
      (Some (W, H)) true true = Ok out
    ∧ length out = length coords_
    ∧ Forall (inside W H) out.
Proof.
  intros Hw Hh HW HH Hin. unfold to_image_input_coordinates. simpl.
  assert (Hrel : Forall (inside 1 1) (scale_rows Qdiv (w, h) coords_)).
  { unfold scale_rows. apply Forall_fmap. eapply Forall_impl; [exact Hin|].
    intros c (? & ? & ? & ?). unfold inside. simpl.
    split_and!; by apply Qdiv_unit. }
  assert (Hlen : length (scale_rows Qdiv (w, h) coords_) = length coords_).
  { unfold scale_rows. by rewrite length_fmap. }
  revert Hrel Hlen. generalize (scale_rows Qdiv (w, h) coords_). intros rel Hrel Hlen.
  assert (Hfinal : ∀ padded, Forall (inside 1 1) padded →
            Forall (inside W H) (scale_rows Qmult (W, H) padded)).
  { intros padded Hp. unfold scale_rows. apply Forall_fmap.
    eapply Forall_impl; [exact Hp|]. intros c (? & ? & ? & ?). unfold inside. simpl.
    split_and!; by apply scale_unit. }
  destruct (Qlt_le_dec h w) as [Hhw|Hhw].
  - unfold py_div. destruct (Qeq_bool w 0) eqn:Hz.
    { apply Qeq_bool_iff in Hz. lra. }
    simpl. eexists. split; [done|]. split.
    + unfold scale_rows. by rewrite !length_fmap.
    + apply Hfinal. apply Forall_fmap. eapply Forall_impl; [exact Hrel|].
      intros c ([? ?] & [? ?] & [? ?] & [? ?]). unfold inside. simpl.
      pose proof (ratio_unit h w Hh Hhw).
      split_and!; done || by apply pad_unit.
  - destruct (Qlt_le_dec w h) as [Hwh|Hwh].
    + unfold py_div. destruct (Qeq_bool h 0) eqn:Hz.
      { apply Qeq_bool_iff in Hz. lra. }
      simpl. eexists. split; [done|]. split.
      * unfold scale_rows. by rewrite !length_fmap.
      * apply Hfinal. apply Forall_fmap. eapply Forall_impl; [exact Hrel|].
        intros c ([? ?] & [? ?] & [? ?] & [? ?]). unfold inside. simpl.
        pose proof (ratio_unit w h Hw Hwh).
        split_and!; done || by apply pad_unit.
    + simpl. eexists. split; [done|]. split.
      * unfold scale_rows. by rewrite length_fmap.
      * by apply Hfinal.
Qed.

Lemma absolute_boxes_stay_inside_witness :
  ∃ out,
    to_image_input_coordinates [Coords 0 90 1600 900] (Some (1600, 900)%Q) false false
      (Some (1000, 1000)%Q) true true = Ok out
    ∧ length out = 1
    ∧ Forall (inside 1000 1000) out.
Proof.
  apply (absolute_boxes_stay_inside [Coords 0 90 1600 900] 1600 900 1000 1000 false);
    try done.
  repeat constructor; simpl; lra.
Defined.

Lemma corner_to_center_row (c : coords) :
  proper_size c →
  coords_eq
    (Coords ((c0 c - c2 c / 2 + (c0 c + c2 c / 2)) / 2)
            ((c1 c - c3 c / 2 + (c1 c + c3 c / 2)) / 2)
            (Qabs (c0 c + c2 c / 2 - (c0 c - c2 c / 2)))
            (Qabs (c1 c + c3 c / 2 - (c1 c - c3 c / 2))))%Q
    c.
Proof.
  intros [Hw Hh]. unfold coords_eq. cbn [c0 c1 c2 c3].
  assert (Hw' : (c0 c + c2 c / 2 - (c0 c - c2 c / 2) == c2 c)%Q) by field.
  assert (Hh' : (c1 c + c3 c / 2 - (c1 c - c3 c / 2) == c3 c)%Q) by field.
  rewrite Hw', Hh', !Qabs_pos by done. repeat split; try reflexivity; field.
Qed.

(** X11. The other way round: boxes in centre form, with a width and a
    height that are not negative, come back unchanged, as rational
    numbers, from the [centered_coords] conversion followed by
    [points_to_xywh]. *)
Theorem center_corner_roundtrip (coords_ : list coords) :
  Forall proper_size coords_ →
  ∃ out,
    to_image_input_coordinates coords_ None false true None true false = Ok out
    ∧ Forall2 coords_eq (fst <$> points_to_xywh (bare <$> out)) coords_.
Proof.
  intros Hall. eexists. split; [reflexivity|].
  induction Hall as [|c cs Hc _ IH]; csimpl; constructor; [|exact IH].
  by apply corner_to_center_row.
Qed.

Lemma center_corner_roundtrip_witness :
  ∃ out,
    to_image_input_coordinates [Coords (1 # 2) (1 # 2) (1 # 3) 0] None false true
      None true false = Ok out
    ∧ Forall2 coords_eq (fst <$> points_to_xywh (bare <$> out))
        [Coords (1 # 2) (1 # 2) (1 # 3) 0].
Proof.
  apply (center_corner_roundtrip [Coords (1 # 2) (1 # 2) (1 # 3) 0]).
  repeat constructor; simpl; lra.
Defined.

(** X12. [points_to_xywh] never gives a negative width or height, gives
    the same box whichever of the two corners comes first, and keeps the
    columns after the coordinates. *)
Theorem points_to_xywh_corner_order (points : list (coords * list Q)) :
  Forall (λ r : coords * list Q, proper_size r.1) (points_to_xywh points)
  ∧ Forall2 (λ a b : coords * list Q, coords_eq a.1 b.1 ∧ a.2 = b.2)
            (points_to_xywh (swap_corners <$> points)) (points_to_xywh points)
  ∧ snd <$> points_to_xywh points = snd <$> points.
Proof.
  split_and!.
  - unfold points_to_xywh. apply Forall_fmap, Forall_true. intros p.
    unfold proper_size. cbn [fst c2 c3]. split; apply Qabs_nonneg.
  - unfold points_to_xywh. rewrite <- list_fmap_compose.
    induction points as [|p points IH]; [constructor|].
    rewrite !fmap_cons. constructor; [|exact IH].
    unfold compose, swap_corners. cbn [fst snd c0 c1 c2 c3].
    split; [|done]. unfold coords_eq. cbn [c0 c1 c2 c3].
    split_and!; [field|field|by rewrite Qabs_Qminus..].
  - unfold points_to_xywh. rewrite <- list_fmap_compose. by apply list_fmap_ext.
Qed.

(** ** More on the drawing *)

Lemma draw_bb_on_image_spec {pixel} (image : list (list pixel)) row1
    (bb_list : list (coords * list Q)) (name : option string) :
  image !! 1 = Some row1 →
  draw_bb_on_image image bb_list name
  = Ok (concat (imap (box_events (Z.of_nat (length row1)) (Z.of_nat (length image))
                                 name (length bb_list)) bb_list)).
Proof.
  intros Hrow1. unfold draw_bb_on_image, index. rewrite Hrow1. simpl.
  set (w := Z.of_nat (length row1)). set (h := Z.of_nat (length image)).
  pose (I := λ (k : nat) (events : list draw_event),
    events = concat (imap (box_events w h name (length bb_list)) (take k bb_list))).
  destruct (for_each_total I (range 0 (length bb_list))
              (draw_step w h bb_list name (length bb_list)) [])
    as (events & -> & Hev).
  - done.
  - intros k x events [-> Hk]%lookup_range_Some ->. simpl in *.
    destruct (lookup_lt_is_Some_2 bb_list k) as [row Hrow]; [lia|].
    rewrite (draw_step_spec _ _ _ _ _ _ _ row Hrow) by lia.
    eexists. split; [done|]. unfold I.
    rewrite (imap_take_S _ _ _ _ Hrow), concat_app. simpl.
    by rewrite app_nil_r.
  - rewrite length_range, Nat.sub_0_r in Hev. unfold I in Hev.
    by rewrite firstn_all in Hev; subst.
Qed.

(** X13. On an image with fewer than two rows [draw_bb_on_image] raises
    [IndexError], even when there is no box to draw, because it reads the
    width off the second row; [add_rois_to_img] with no rois returns
    without touching the image. *)
Theorem draw_needs_two_rows {pixel} (image : list (list pixel))
    (bb_list : list (coords * list Q)) (name : option string) :
  length image < 2 →
  draw_bb_on_image image bb_list name = Err IndexError
  ∧ ∀ output_scale cls_name remove_padding,
      add_rois_to_img output_scale image [] cls_name remove_padding = Ok [].
Proof.
  intros Hlen. split; [|done]. unfold draw_bb_on_image, index.
  by rewrite lookup_ge_None_2 by lia.
Qed.

Lemma draw_needs_two_rows_witness :
  draw_bb_on_image [[(); ()]] [Sample.inner_box] None = Err IndexError.
Proof.
  apply (draw_needs_two_rows [[(); ()]] [Sample.inner_box] None). simpl. lia.
Defined.

Lemma box_events_rectangles w h name n j row :
  drawn_rectangles (box_events w h name n j row) = [clamped_rectangle w h row].
Proof.
  unfold box_events, clamped_rectangle, drawn_rectangles.
  destruct (pixel_corners w h row.1) as [[[xmin ymin] xmax] ymax].
  rewrite !omap_app. by destruct (out_of_bounds _ _ _ _ _ _), name.
Qed.

Lemma box_events_printed w h name n j row :
  printed_boxes (box_events w h name n j row)
  = if box_in_bounds w h row then [] else [pixel_corners w h row.1].
Proof.
  unfold box_events, box_in_bounds, printed_boxes.
  destruct (pixel_corners w h row.1) as [[[xmin ymin] xmax] ymax].
  rewrite !omap_app. by destruct (out_of_bounds _ _ _ _ _ _), name.
Qed.

Lemma box_events_texts w h name n j row :
  put_texts (box_events w h name n j row)
  = match name with
    | Some t => [(t, ((clamped_rectangle w h row).1.1, (clamped_rectangle w h row).2.2))]
    | None => []
    end.
Proof.
  unfold box_events, clamped_rectangle, put_texts.
  destruct (pixel_corners w h row.1) as [[[xmin ymin] xmax] ymax].
  rewrite !omap_app. by destruct (out_of_bounds _ _ _ _ _ _), name.
Qed.

Lemma omap_concat_imap {A B C} (f : B → option C) (g : nat → A → list B) (l : list A) :
  omap f (concat (imap g l)) = concat (imap (λ j x, omap f (g j x)) l).
Proof.
  revert g. induction l as [|x l IH]; intros g; [done|].
  rewrite !imap_cons. simpl. by rewrite omap_app, IH.
Qed.

Lemma concat_imap_const {A B} (g : A → list B) (l : list A) :
  concat (imap (λ _ x, g x) l) = concat (g <$> l).
Proof.
  induction l as [|x l IH]; [done|]. rewrite imap_cons, fmap_cons. simpl.
  f_equal. exact IH.
Qed.

Lemma concat_singletons {A B} (f : A → B) (l : list A) :
  concat ((λ x, [f x]) <$> l) = f <$> l.
Proof. induction l as [|x l IH]; [done|]. csimpl. by f_equal. Qed.

(** X14. On an image of at least two rows the function returns, and
    what it did is fixed by the boxes: one rectangle per box, in order,
    with the clamped corners; one message for each box out of the bounds,
    with the corners before clamping; and, when a name is given, the name
    once per box, at the lower left corner of the rectangle. *)
Theorem draw_bb_on_image_content {pixel} (image : list (list pixel)) row1
    (bb_list : list (coords * list Q)) (name : option string) :
  image !! 1 = Some row1 →
  ∃ events,
    draw_bb_on_image image bb_list name = Ok events
    ∧ drawn_rectangles events
      = clamped_rectangle (Z.of_nat (length row1)) (Z.of_nat (length image))
          <$> bb_list
    ∧ printed_boxes events
      = (λ row : coords * list Q,
           pixel_corners (Z.of_nat (length row1)) (Z.of_nat (length image)) row.1)
          <$> List.filter
                (λ row, negb (box_in_bounds (Z.of_nat (length row1))
                                            (Z.of_nat (length image)) row))
                bb_list
    ∧ put_texts events
      = match name with
        | Some t =>
            (λ row,
               let r := clamped_rectangle (Z.of_nat (length row1))
                                          (Z.of_nat (length image)) row in
               (t, (r.1.1, r.2.2))) <$> bb_list
        | None => []
        end.
Proof.
  intros Hrow1. eexists. split; [by apply draw_bb_on_image_spec|].
  set (w := Z.of_nat (length row1)). set (h := Z.of_nat (length image)).
  unfold drawn_rectangles, printed_boxes, put_texts.
  rewrite !omap_concat_imap. split_and!.
  - rewrite (imap_ext _ (λ _ row, [clamped_rectangle w h row]))
      by (intros; apply box_events_rectangles).
    rewrite concat_imap_const. apply concat_singletons.
  - rewrite (imap_ext _ (λ _ row, if box_in_bounds w h row then []
                                  else [pixel_corners w h row.1]))
      by (intros; apply box_events_printed).
    rewrite concat_imap_const. induction bb_list as [|row l IH]; [done|].
    csimpl. rewrite IH. by destruct (box_in_bounds w h row).
  - rewrite (imap_ext _ (λ _ row,
       match name with
       | Some t => [(t, ((clamped_rectangle w h row).1.1,
                         (clamped_rectangle w h row).2.2))]
       | None => []
       end)) by (intros; apply box_events_texts).
    rewrite concat_imap_const. destruct name as [t|].
    + exact (concat_singletons _ _).
    + induction bb_list as [|row l IH]; [done|]. csimpl. by rewrite IH.
Qed.

Lemma draw_bb_on_image_content_witness :
  ∃ events,
    draw_bb_on_image Sample.image [Sample.inner_box; Sample.wide_box] (Some "apple")
      = Ok events
    ∧ drawn_rectangles events = [((0, 0), (2, 1)); ((0, 0), (2, 1))]%Z
    ∧ printed_boxes events = [(-1, 0, 4, 1)%Z].
Proof.
  destruct (draw_bb_on_image_content Sample.image [(); (); ()]
              [Sample.inner_box; Sample.wide_box] (Some "apple") eq_refl)
    as (events & Hrun & Hrect & Hprint & _).
  exists events. split; [done|]. by split.
Defined.

Lemma Forall_concat_imap {A B} (P : B → Prop) (g : nat → A → list B) (l : list A) :
  (∀ j x, l !! j = Some x → Forall P (g j x)) → Forall P (concat (imap g l)).
Proof.
  revert g. induction l as [|x l IH]; intros g Hg; [constructor|].
  rewrite imap_cons. simpl. apply Forall_app. split; [by apply (Hg 0)|].
  apply IH. intros j y Hy. by apply (Hg (S j)).
Qed.

Lemma rank_color_bytes j n :
  j < n →
  byte (rank_color j n).1.1 ∧ byte (rank_color j n).1.2 ∧ byte (rank_color j n).2.
Proof.
  intros Hj. unfold rank_color, byte. simpl.
  assert (j * 255 / n < 255)%nat by (apply Nat.Div0.div_lt_upper_bound; lia).
  lia.
Qed.

(** X15. Whatever the boxes, nothing is drawn off the image: the first
    corner of every rectangle has no negative coordinate, the second is
    not beyond the last column and row, every text is put at such a
    place, and every colour channel is a byte. *)
Theorem draw_stays_on_image {pixel} (image : list (list pixel)) row1
    (bb_list : list (coords * list Q)) (name : option string) :
  image !! 1 = Some row1 →
  ∃ events,
    draw_bb_on_image image bb_list name = Ok events
    ∧ Forall (drawn_on_image (Z.of_nat (length row1)) (Z.of_nat (length image)))
             events.
Proof.
  intros Hrow1. eexists. split; [by apply draw_bb_on_image_spec|].
  apply Forall_concat_imap. intros j row Hj.
  apply lookup_lt_Some in Hj.
  destruct (rank_color_bytes j (length bb_list) Hj) as (Hr & Hg & Hb).
  unfold box_events.
  destruct (pixel_corners _ _ row.1) as [[[xmin ymin] xmax] ymax].
  destruct (rank_color j (length bb_list)) as [[r g] b]. simpl in Hr, Hg, Hb.
  unfold byte in *. apply Forall_app. split.
  { destruct (out_of_bounds _ _ _ _ _ _); [|constructor].
    apply Forall_cons. split; [exact I|constructor]. }
  apply Forall_cons. split; [simpl; unfold byte; lia|].
  destruct name; [|constructor].
  apply Forall_cons. split; [simpl; unfold byte; lia|constructor].
Qed.

Lemma draw_stays_on_image_witness :
  ∃ events,
    draw_bb_on_image Sample.image [Sample.wide_box] (Some "apple") = Ok events
    ∧ Forall (drawn_on_image 3 2) events.
Proof.
  exact (draw_stays_on_image Sample.image [(); (); ()] [Sample.wide_box]
           (Some "apple") eq_refl).
Defined.

(** ** Padding put on and taken off *)










(** ** More on the evaluation driver *)

Lemma minibatches_S {source minibatch : Type}
    (next : source → minibatch * source) src n :
  minibatches next src (S n)
  = minibatches next src n ++ [(next (advance next src n)).1].
Proof.
  revert src. induction n as [|n IH]; intros src; [done|].
  change (minibatches next src (S (S n)))
    with ((next src).1 :: minibatches next (next src).2 (S n)).
  by rewrite IH.
Qed.

Lemma advance_S {source minibatch : Type}
    (next : source → minibatch * source) src n :
  advance next src (S n) = (next (advance next src n)).2.
Proof. revert src. induction n as [|n IH]; intros src; [done|]. apply (IH _). Qed.

Section DriverMore.
Variable HCH : HierarchyHelper.
Variables source minibatch : Type.
Variable next_minibatch : source → minibatch * source.
Variable roi_stream : minibatch → nat → list gt_row.
Variable frcn_eval : minibatch → network_output.
Variable evaluate_detections :
  list (list (list det_row)) → gmap string (list gt_info) → list string →
  gmap string ap_value.

Lemma inference_loop_exact cfg src :
  inference_loop _ _ next_minibatch roi_stream frcn_eval cfg src
  = Ok (RawData (advance next_minibatch src 10)
          (ground_truth_of roi_stream cfg <$> minibatches next_minibatch src 10)
          ((λ mb, cls_pred (frcn_eval mb)) <$> minibatches next_minibatch src 10)
          ((λ mb, rpn_rois (frcn_eval mb)) <$> minibatches next_minibatch src 10)
          [Print_evaluating 10; Print_type_of_classes]).
Proof.
  unfold inference_loop.
  pose (I := λ (k : nat) (raw : raw_data source),
    k ≤ 10 ∧
    raw = RawData (advance next_minibatch src k)
            (ground_truth_of roi_stream cfg <$> minibatches next_minibatch src k)
            ((λ mb, cls_pred (frcn_eval mb)) <$> minibatches next_minibatch src k)
            ((λ mb, rpn_rois (frcn_eval mb)) <$> minibatches next_minibatch src k)
            [Print_evaluating 10; Print_type_of_classes]).
  destruct (for_each_total I (range 0 10)
              (inference_step _ _ next_minibatch roi_stream frcn_eval cfg)
              (RawData src [] [] [] [Print_evaluating 10; Print_type_of_classes]))
    as (raw & Hrun & _ & ->); [by split; [lia|]| |done].
  intros k x raw [-> Hk]%lookup_range_Some [_ ->]. simpl in Hk.
  unfold inference_step. cbn [source_state all_raw_gt_boxes all_raw_outputs
                               all_raw_rois stdout].
  destruct (next_minibatch (advance next_minibatch src k)) as [mb src'] eqn:Hnext.
  eexists. split; [done|]. split; [lia|].
  rewrite minibatches_S, advance_S, !fmap_app, Hnext. simpl.
  replace (bool_decide (k `mod` 1000 = 0) && negb (bool_decide (k = 0))) with false;
    [done|].
  destruct (decide (k = 0)) as [->|]; [done|].
  rewrite (bool_decide_eq_false_2 (k `mod` 1000 = 0)); [done|].
  rewrite Nat.mod_small by lia. done.
Qed.

(** X17. The loop over the test images reads ten minibatches, one after
    the other, and keeps for the k-th of them its ground-truth rows that
    are not padding, its class predictions and its region boxes, at
    position k of the three lists: no row with label 0 is kept, and the
    three lists stay aligned. It prints the two opening lines and no
    progress line. *)
Theorem inference_loop_content cfg src :
  ∃ raw,
    inference_loop _ _ next_minibatch roi_stream frcn_eval cfg src = Ok raw
    ∧ source_state raw = advance next_minibatch src 10
    ∧ (∀ k mb, minibatches next_minibatch src 10 !! k = Some mb →
         all_raw_gt_boxes raw !! k = Some (ground_truth_of roi_stream cfg mb)
         ∧ all_raw_outputs raw !! k = Some (cls_pred (frcn_eval mb))
         ∧ all_raw_rois raw !! k = Some (rpn_rois (frcn_eval mb)))
    ∧ Forall (Forall (λ r : gt_row, Qeq_bool r.2 0 = false)) (all_raw_gt_boxes raw)
    ∧ stdout raw = [Print_evaluating 10; Print_type_of_classes].
Proof.
  eexists. split; [apply inference_loop_exact|].
  cbn [source_state all_raw_gt_boxes all_raw_outputs all_raw_rois stdout].
  split_and!; [done| |  |done].
  - intros k mb Hk. rewrite !list_lookup_fmap, Hk. done.
  - apply Forall_fmap, Forall_true. intros mb. unfold ground_truth_of. simpl.
    apply Forall_forall. intros r [_ Hr]%list_elem_of_In%filter_In.
    by apply negb_true_iff.
Qed.

(** X18. A minibatch, among the ten, whose ground-truth rows are all
    padding keeps the driver from returning a result; when it is the
    first, the driver raises the [ValueError] of the empty image. *)
Theorem eval_padded_minibatch_fails cfg src :
  (∀ k mb, minibatches next_minibatch src 10 !! k = Some mb →
     ground_truth_of roi_stream cfg mb = [] →
     ∃ e, eval_fast_rcnn_mAP HCH _ _ next_minibatch roi_stream frcn_eval
            evaluate_detections cfg src = Err e)
  ∧ (ground_truth_of roi_stream cfg (next_minibatch src).1 = [] →
     eval_fast_rcnn_mAP HCH _ _ next_minibatch roi_stream frcn_eval
       evaluate_detections cfg src = Err ValueError).
Proof.
  unfold eval_fast_rcnn_mAP. rewrite inference_loop_exact.
  change (Ok ?a ≫= ?k) with (k a).
  cbn [all_raw_gt_boxes all_raw_outputs all_raw_rois stdout].
  remember (minibatches next_minibatch src 10) as mbs eqn:Hmbs.
  split.
  - intros k mb Hk Hpad.
    destruct (for_each_fails (ground_truth_of roi_stream cfg <$> mbs)
                (image_step HCH (get_all_classes HCH)) []
                (list_to_map ((λ key, (key, [])) <$> get_all_classes HCH)))
      as [e He].
    + apply list_elem_of_lookup. exists k. by rewrite list_lookup_fmap, Hk, <- Hpad.
    + intros t. by exists ValueError.
    + exists e. unfold prepare_ground_truth_boxes. by rewrite He.
  - intros Hpad. unfold prepare_ground_truth_boxes.
    change (minibatches next_minibatch src 10)
      with ((next_minibatch src).1
            :: minibatches next_minibatch (next_minibatch src).2 9) in Hmbs.
    subst mbs. rewrite !fmap_cons, Hpad. done.
Qed.

End DriverMore.

(** X19. The report stops at the first class, other than
    [__background__], for which there is no AP: it raises [KeyError] with
    the name of that class, and the mean is not printed. *)
Theorem report_missing_class (aps : gmap string ap_value) pre c post out :
  (∀ c', c' ∈ non_background pre → is_Some (aps !! c')) →
  c ≠ "__background__" →
  aps !! c = None →
  report (pre ++ c :: post) aps out = Err (KeyError c).
Proof.
  intros Hpre Hc Hnone. unfold report.
  assert (∃ st, for_each pre (report_step aps) ([], out) = Ok st) as [st Hst].
  { assert (∃ ap_list,
      Forall2 (λ c ap, aps !! c = Some ap) (non_background pre) ap_list)
      as [ap_list Hall].
    { induction (non_background pre) as [|c' cs IH]; [by exists []|].
      destruct (Hpre c') as [ap Hap]; [by left|].
      destruct IH as [ap_list Hall]; [intros c'' Hc''; apply Hpre; by right|].
      exists (ap :: ap_list). by constructor. }
    eexists. apply report_loop_spec. by exists ap_list. }
  rewrite (for_each_first_error pre c post _ _ _ (KeyError c) Hst); [done|].
  unfold report_step. apply String.eqb_neq in Hc. by rewrite Hc, Hnone.
Qed.

Lemma inference_loop_content_witness :
  ∃ raw,
    inference_loop nat nat Sample.next_minibatch Sample.roi_stream Sample.frcn_eval
      Sample.cfg 0 = Ok raw
    ∧ source_state raw = 10
    ∧ all_raw_gt_boxes raw !! 3 = Some [Sample.apple_gtb].
Proof.
  destruct (inference_loop_content nat nat Sample.next_minibatch Sample.roi_stream
              Sample.frcn_eval Sample.cfg 0) as (raw & Hrun & Hsrc & Hk & _).
  exists raw. split; [done|]. split; [done|].
  by destruct (Hk 3 3 eq_refl) as (-> & _).
Defined.

Lemma eval_padded_minibatch_fails_witness :
  eval_fast_rcnn_mAP Sample.HCH nat nat Sample.next_minibatch
    (λ mb rows, replicate rows (Coords 0 0 0 0, 0%Q))
    Sample.frcn_eval Sample.evaluate_detections Sample.cfg 0
  = Err ValueError.
Proof.
  by apply (proj2 (eval_padded_minibatch_fails Sample.HCH nat nat
                     Sample.next_minibatch
                     (λ mb rows, replicate rows (Coords 0 0 0 0, 0%Q))
                     Sample.frcn_eval Sample.evaluate_detections Sample.cfg 0)).
Defined.

Lemma report_missing_class_witness :
  report Sample.classes (delete "apple" Sample.aps) [] = Err (KeyError "apple").
Proof.
  apply (report_missing_class (delete "apple" Sample.aps)
           ["__background__"; "fruit"] "apple" ["orange"] []); [|done..].
  intros c. unfold non_background. simpl.
  rewrite elem_of_cons, elem_of_nil. intros [->|[]]. by eexists.
Defined.
